(** * gatsby-plugin-typesense: the post-build reindexing hook

    A shallow embedding of [gatsby-node.js]: the value coercion
    [typeCastValue], the per-page extraction and submission
    [indexContentInTypesense], the synonym helpers [getExistingSynonyms] and
    [upsertSynonyms], and the orchestration [onPostBuild]; and of the page
    indexer of the earlier revision of that file.

    The search engine, the file system, the HTML parser and the build
    reporter are collaborators of the plugin.  The engine and the file system
    are an oracle that answers every request from the history of requests
    made so far; the HTML parser is a function from file contents to the
    marker elements it selects; the reporter is a log. *)

From Stdlib Require Import ZArith NArith Ascii String List Lia.
From Stdlib Require DecimalString DecimalN DecimalPos.
From stdpp Require Import base option list strings gmap fin_maps.

Local Open Scope string_scope.

(** ** JavaScript strings

    A string is a sequence of code units; the model keeps the code units
    0..255, which [ascii] enumerates.  On that range the white space of
    [String.prototype.trim] is TAB, LF, VT, FF, CR, SPACE and NBSP, and
    [toLowerCase] maps A-Z and the upper-case letters of Latin-1. *)

Module JsString.

Definition isWhiteSpace (c : ascii) : bool :=
  let n := N_of_ascii c in
  ((9 <=? n) && (n <=? 13) || (n =? 32) || (n =? 160))%N.

Fixpoint trimStart (s : string) : string :=
  match s with
  | String c r => if isWhiteSpace c then trimStart r else s
  | EmptyString => EmptyString
  end.

Fixpoint trimEnd (s : string) : string :=
  match s with
  | String c r =>
      match trimEnd r with
      | EmptyString => if isWhiteSpace c then EmptyString else String c EmptyString
      | r' => String c r'
      end
  | EmptyString => EmptyString
  end.

Definition trim (s : string) : string := trimEnd (trimStart s).

Definition lowerChar (c : ascii) : ascii :=
  let n := N_of_ascii c in
  if ((65 <=? n) && (n <=? 90) ||
      (192 <=? n) && (n <=? 222) && negb (n =? 215))%N
  then ascii_of_N (n + 32) else c.

Fixpoint toLowerCase (s : string) : string :=
  match s with
  | String c r => String (lowerChar c) (toLowerCase r)
  | EmptyString => EmptyString
  end.

Fixpoint startsWith (p s : string) : bool :=
  match p, s with
  | EmptyString, _ => true
  | String a p', String b s' => Ascii.eqb a b && startsWith p' s'
  | String _ _, EmptyString => false
  end.

(** [hay.includes(needle)] *)
Fixpoint includes (needle hay : string) : bool :=
  startsWith needle hay ||
  match hay with
  | String _ r => includes needle r
  | EmptyString => false
  end.

Fixpoint drop (n : nat) (s : string) : string :=
  match n, s with
  | S n', String _ r => drop n' r
  | _, _ => s
  end.

(** [s.replace(pat, "")] with a string pattern: the first occurrence of
    [pat] is removed. *)
Fixpoint removeFirst (pat s : string) : string :=
  if startsWith pat s then drop (String.length pat) s
  else match s with
       | String c r => String c (removeFirst pat r)
       | EmptyString => EmptyString
       end.

(** [s.replace(/index\.html$/, "")] *)
Fixpoint removeSuffix (suf s : string) : string :=
  if String.eqb suf s then EmptyString
  else match s with
       | String c r => String c (removeSuffix suf r)
       | EmptyString => EmptyString
       end.

(** Two strings are equal up to the case of their letters. *)
Inductive eqIgnoreCase : string -> string -> Prop :=
| eic_nil : eqIgnoreCase EmptyString EmptyString
| eic_cons a b s t :
    lowerChar a = lowerChar b -> eqIgnoreCase s t ->
    eqIgnoreCase (String a s) (String b t).

End JsString.

(** ** JavaScript numbers

    A finite Number is kept as the decimal numeral of its exact value:
    [Dec neg m e] is (-1)^neg * m * 10^e, with [e] at most 0 and, in a
    fraction, no final zero, so that two finite Numbers other than zero are
    equal exactly when their numerals are.  [parseInt] and [parseFloat] read
    a decimal (or hexadecimal) numeral and return its Number value
    ([toNumber]): the nearest double, ties to even, and Infinity from 2^1024
    on.  The one question the plugin asks of a Number is whether it is
    falsy; [isZero] answers it also for a numeral that has not been
    rounded, which denotes zero when its mantissa is zero or when its value
    is at most half the smallest subnormal, 2^-1075. *)

Module JsNumber.

Inductive number :=
| NaN
| Infinity (neg : bool)
| Dec (neg : bool) (m : N) (e : Z).

Definition isZero (x : number) : bool :=
  match x with
  | Dec _ m e =>
      (m =? 0)%N ||
      ((e <? 0)%Z && (Z.of_N m * 2 ^ 1075 <=? 10 ^ (- e))%Z)
  | _ => false
  end.

(** ToBoolean on a Number: false for +0, -0 and NaN. *)
Definition truthy (x : number) : bool :=
  match x with
  | NaN => false
  | Infinity _ => true
  | Dec _ _ _ => negb (isZero x)
  end.

(** The value of a digit of radix up to 36. *)
Definition digitValue (c : ascii) : option N :=
  let n := N_of_ascii c in
  if ((48 <=? n) && (n <=? 57))%N then Some (n - 48)%N
  else if ((97 <=? n) && (n <=? 122))%N then Some (n - 87)%N
  else if ((65 <=? n) && (n <=? 90))%N then Some (n - 55)%N
  else None.

(** The value of the longest prefix of [s] made of digits of radix [R],
    [acc] being the value read so far ([None]: no digit yet). *)
Fixpoint parseDigits (R : N) (s : string) (acc : option N) : option N :=
  match s with
  | String c r =>
      match digitValue c with
      | Some d =>
          if (d <? R)%N
          then parseDigits R r (Some (default 0%N acc * R + d)%N)
          else acc
      | None => acc
      end
  | EmptyString => acc
  end.

(** An optional sign: whether it is a minus, and the rest. *)
Definition readSign (s : string) : bool * string :=
  match s with
  | String c r =>
      if Ascii.eqb c "-" then (true, r)
      else if Ascii.eqb c "+" then (false, r)
      else (false, s)
  | EmptyString => (false, s)
  end.

(** The double nearest to the positive ratio [num / den], as [(t, q)] for
    t * 2^-q: [q] is chosen so that [t] has 53 bits, or is 1074 for a
    subnormal, and the remainder of the division rounds [t] to nearest,
    ties to even. *)
Definition nearest (num den : Z) : Z * Z :=
  let scaled (q : Z) :=
    if (0 <=? q)%Z then (num * 2 ^ q, den)%Z else (num, den * 2 ^ (- q))%Z in
  let q0 := (52 - (Z.log2 num - Z.log2 den))%Z in
  let q1 :=
    if (let '(a, b) := scaled q0 in a / b <? 2 ^ 52)%Z then (q0 + 1)%Z else q0 in
  let q := Z.min q1 1074 in
  let '(a, b) := scaled q in
  let t := (a / b)%Z in
  let r := (a mod b)%Z in
  (if (b <? 2 * r)%Z || ((2 * r =? b)%Z && Z.odd t) then (t + 1)%Z else t, q).

(** The numeral of m * 10^e without the final zeros of its fraction. *)
Fixpoint stripZeros (fuel : nat) (m : N) (e : Z) : N * Z :=
  match fuel with
  | O => (m, e)
  | S fuel' =>
      if (e <? 0)%Z && (m mod 10 =? 0)%N
      then stripZeros fuel' (m / 10)%N (e + 1)%Z
      else (m, e)
  end.

(** The Number value of the numeral (-1)^neg * m * 10^e.  Every integer up
    to 2^53 is a Number. *)
Definition toNumber (neg : bool) (m : N) (e : Z) : number :=
  if (m =? 0)%N then Dec neg 0 0
  else if (e =? 0)%Z && (m <=? 2 ^ 53)%N then Dec neg m 0
  else
    let '(t, q) :=
      if (0 <=? e)%Z then nearest (Z.of_N m * 10 ^ e) 1
      else nearest (Z.of_N m) (10 ^ (- e)) in
    if (t =? 0)%Z then Dec neg 0 0
    else if (q <=? 0)%Z then
      let v := (t * 2 ^ (- q))%Z in
      if (2 ^ 1024 <=? v)%Z then Infinity neg else Dec neg (Z.to_N v) 0
    else
      let '(m', e') := stripZeros (Z.to_nat q) (Z.to_N (t * 5 ^ q)) (- q) in
      Dec neg m' e'.

(** [parseInt(s)] without a radix: leading white space is dropped, a sign
    is read, a [0x] or [0X] prefix selects radix 16, and the longest prefix
    of digits is the value; no digit gives NaN. *)
Definition parseInt (s : string) : number :=
  let '(neg, s1) := readSign (JsString.trimStart s) in
  let '(R, s2) :=
    if JsString.startsWith "0x" s1 || JsString.startsWith "0X" s1
    then (16%N, JsString.drop 2 s1) else (10%N, s1) in
  match parseDigits R s2 None with
  | Some m => toNumber neg m 0
  | None => NaN
  end.

(** The longest prefix of decimal digits, and the rest. *)
Fixpoint digitsPrefix (s : string) : string * string :=
  match s with
  | String c r =>
      if ((48 <=? N_of_ascii c) && (N_of_ascii c <=? 57))%N
      then let '(d, t) := digitsPrefix r in (String c d, t)
      else (EmptyString, s)
  | EmptyString => (EmptyString, EmptyString)
  end.

Definition decimalValue (ds : string) : N :=
  default 0%N (parseDigits 10 ds None).

(** [parseFloat(s)]: the longest prefix of the trimmed string that is a
    StrDecimalLiteral: a sign, then [Infinity] or digits with an optional
    fraction and an optional exponent. *)
Definition parseFloat (s : string) : number :=
  let '(neg, s1) := readSign (JsString.trimStart s) in
  if JsString.startsWith "Infinity" s1 then Infinity neg
  else
    let '(ip, s2) := digitsPrefix s1 in
    let '(fp, s3) :=
      match s2 with
      | String c r => if Ascii.eqb c "." then digitsPrefix r else (EmptyString, s2)
      | EmptyString => (EmptyString, s2)
      end in
    if String.eqb ip "" && String.eqb fp "" then NaN
    else
      let ex :=
        match s3 with
        | String c r =>
            if Ascii.eqb c "e" || Ascii.eqb c "E" then
              let '(eneg, r1) := readSign r in
              let '(ed, _) := digitsPrefix r1 in
              if String.eqb ed "" then 0%Z
              else if eneg then (- Z.of_N (decimalValue ed))%Z
                   else Z.of_N (decimalValue ed)
            else 0%Z
        | EmptyString => 0%Z
        end in
      toNumber neg (decimalValue (ip ++ fp)) (ex - Z.of_nat (String.length fp)).

End JsNumber.

Import JsString JsNumber.

(** ** Documents and schemas *)

(** What [typeCastValue] returns: a Number, a boolean or the raw text. *)
Inductive scalar :=
| SNum (x : number)
| SBool (b : bool)
| SStr (s : string).

(** A property of the document under construction: a coerced value, or the
    array that an array-typed field accumulates. *)
Inductive value :=
| VScalar (x : scalar)
| VArray (xs : list scalar).

(** ToBoolean: arrays are truthy, also when empty. *)
Definition truthy (v : value) : bool :=
  match v with
  | VScalar (SNum x) => JsNumber.truthy x
  | VScalar (SBool b) => b
  | VScalar (SStr s) => negb (String.eqb s "")
  | VArray _ => true
  end.

(** [typesenseDocument]: an object used as a map from field names to
    values.  The map holds the own properties of the object; what the
    object inherits from [Object.prototype] is seen by [getProperty] and
    [setProperty]. *)
Abbreviation document := (gmap string value).

(** The names of the members of [Object.prototype]. *)
Definition inherited (n : string) : bool :=
  existsb (String.eqb n)
    [ "constructor"; "hasOwnProperty"; "isPrototypeOf";
      "propertyIsEnumerable"; "toLocaleString"; "toString"; "valueOf";
      "__defineGetter__"; "__defineSetter__"; "__lookupGetter__";
      "__lookupSetter__"; "__proto__" ].

(** What reading [doc[n]] finds: an own property; or a member of
    [Object.prototype], which is a function (for [__proto__] the prototype
    itself), so truthy and not an array; or nothing. *)
Inductive property :=
| Own (v : value)
| Inherited
| Missing.

Definition getProperty (doc : document) (n : string) : property :=
  match doc !! n with
  | Some v => Own v
  | None => if inherited n then Inherited else Missing
  end.

(** [doc[n] = v] for a string, a number or a boolean [v]: the own property
    is updated or created, except that the assignment reaches the setter of
    [__proto__] when the object has no own property of that name, and the
    setter ignores a value that is not an object. *)
Definition setProperty (doc : document) (n : string) (v : value) : document :=
  match getProperty doc n with
  | Inherited => if String.eqb n "__proto__" then doc else <[n := v]> doc
  | Own _ | Missing => <[n := v]> doc
  end.

(** The error of calling [push] on a value that has no such method. *)
Definition notAFunction : string :=
  "TypeError: typesenseDocument[attributeName].push is not a function".

Record FieldDefinition := {
  field_name : string;
  field_type : string;
}.

(** A collection schema: [name], [fields], and whatever other properties
    the object has, which the plugin copies without looking at them. *)
Record CollectionSchema := {
  schema_name : string;
  schema_fields : list FieldDefinition;
  schema_rest : gmap string string;
}.

(** One element selected by [[data-typesense-field]]: the value of the
    attribute and the text of the element. *)
Record Marker := {
  attributeName : string;
  attributeValue : string;
}.

Definition typeCastValue (fieldDefinition : FieldDefinition)
    (attributeValue : string) : scalar :=
  if includes "int" (field_type fieldDefinition) then
    SNum (parseInt attributeValue)
  else if includes "float" (field_type fieldDefinition) then
    SNum (parseFloat attributeValue)
  else if includes "bool" (field_type fieldDefinition) then
    if String.eqb (toLowerCase attributeValue) "false" then SBool false
    else if String.eqb attributeValue "0" then SBool false
    else SBool (negb (String.eqb (trim attributeValue) ""))
  else SStr attributeValue.

(** [fields.find(f => f.name === attributeName)] *)
Definition findField (fields : list FieldDefinition) (n : string)
    : option FieldDefinition :=
  List.find (fun f => String.eqb (field_name f) n) fields.

Definition isArrayType (f : FieldDefinition) : bool :=
  includes "[]" (field_type f).

(** A synonym rule of a collection. *)
Record Synonym := {
  synonym_id : string;
  synonym_synonyms : list string;
}.

(** ** The collaborators

    Every request of a run is recorded, with whether it succeeded.  The
    world answers a request from the history of the run so far, so that a
    world can fail any request at any point of any run. *)

Inductive Call :=
| ListHtmlFiles (rootDir : string)
| ReadFile (path : string)
| AliasRetrieve (alias : string)
| SynonymsRetrieve (collection : string)
| CollectionCreate (schema : CollectionSchema)
| DocumentCreate (collection : string) (doc : document)
| SynonymUpsert (collection : string) (id : string) (synonyms : list string)
| AliasUpsert (alias : string) (collection : string)
| CollectionDelete (collection : string).

Record Event := {
  ev_call : Call;
  ev_ok : bool;
}.

Abbreviation History := (list Event).

(** A reply: the value of the resolved promise, or the message of the
    error it was rejected with. *)
Inductive Reply (R : Type) :=
| Resolved (r : R)
| Rejected (e : string).
Arguments Resolved {R} r.
Arguments Rejected {R} e.

Record World := {
  (** [utils.getHTMLFilesRecursively(rootDir, rootDir, exclude)], the
      exclusion patterns being part of the world *)
  w_listHtmlFiles : History -> string -> Reply (list string);
  w_readFile : History -> string -> Reply string;
  (** the [collection_name] of the alias, when the reply has one *)
  w_aliasRetrieve : History -> string -> Reply (option string);
  (** the [synonyms] of the reply, when it has them *)
  w_synonymsRetrieve : History -> string -> Reply (option (list Synonym));
  w_collectionCreate : History -> CollectionSchema -> Reply unit;
  w_documentCreate : History -> string -> document -> Reply unit;
  w_synonymUpsert : History -> string -> string -> list string -> Reply unit;
  w_aliasUpsert : History -> string -> string -> Reply unit;
  w_collectionDelete : History -> string -> Reply unit;
  (** [cheerio.load(fileContents)] and the selection of the elements that
      carry the marker attribute, in document order *)
  w_select : string -> list Marker;
}.

(** ** Outcomes and the state of a run

    A computation returns, throws (a rejected promise), or ends the process:
    [reporter.panic] reports the error and exits the build. *)

Inductive message :=
| MsgStarting
| MsgNewCollectionName (n : string)
| MsgOldCollectionName (n : option string)
| MsgRetrievingSynonyms (n : string)
| MsgRetrievedSynonyms (k : nat)
| MsgDiscoveryFailed (e : string)
| MsgCreatingCollection (n : string)
| MsgCouldNotCreateCollection (n e : string)
| MsgIndexing (wwwPath : string)
| MsgUnknownField (n : string)
| MsgNoMarkers
| MsgCreatingDocument (d : document)
| MsgDocumentCreated
| MsgCouldNotCreateDocument (e : string)
| MsgUpsertingSynonyms (k : nat)
| MsgUpsertedSynonyms
| MsgErrorUpsertingSynonyms (e : string)
| MsgNoSynonyms
| MsgUpsertingAlias (a n : string)
| MsgUpsertedAlias
| MsgCouldNotUpsertAlias (a n e : string)
| MsgDeletingOld (n : string)
| MsgDeletedOld
| MsgCouldNotDeleteOld (n e : string)
| MsgIndexed (a n : string)
| MsgFailedToRetrieveSynonyms (n e : string)
| MsgFailedToUpsertSynonym (id e : string).

Inductive level := Verbose | Info | Warn | Error | Panic | ConsoleWarn.

Inductive outcome (A : Type) :=
| Returned (a : A)
| Thrown (e : string)
| Exited.
Arguments Returned {A} a.
Arguments Thrown {A} e.
Arguments Exited {A}.

(** Schema objects live in a store: the caller's [collectionSchema] is one
    object, the copy the run makes of it is another. *)
Record State := {
  calls : History;
  reports : list (level * message);
  objects : gmap nat CollectionSchema;
}.

Definition M (A : Type) : Type := State -> outcome A * State.

Definition ret {A} (a : A) : M A := fun s => (Returned a, s).

Definition bind {A B} (m : M A) (k : A -> M B) : M B :=
  fun s =>
    match m s with
    | (Returned a, s') => k a s'
    | (Thrown e, s') => (Thrown e, s')
    | (Exited, s') => (Exited, s')
    end.

Definition throw {A} (e : string) : M A := fun s => (Thrown e, s).

(** [try { body } catch (error) { handler }]: a thrown error is caught, an
    exit of the process is not. *)
Definition tryCatch {A} (body : M A) (handler : string -> M A) : M A :=
  fun s =>
    match body s with
    | (Thrown e, s') => handler e s'
    | r => r
    end.

Declare Scope run_scope.
Delimit Scope run_scope with run.
Notation "x <- m ;; k" := (bind m (fun x => k))
  (at level 100, m at next level, right associativity) : run_scope.
Notation "m ;; k" := (bind m (fun _ => k))
  (at level 100, right associativity) : run_scope.
Local Open Scope run_scope.

Definition report (l : level) (msg : message) : M unit :=
  fun s => (Returned tt,
            {| calls := calls s; reports := reports s ++ [(l, msg)];
               objects := objects s |}).

Definition panic {A} (msg : message) : M A :=
  fun s => (Exited,
            {| calls := calls s; reports := reports s ++ [(Panic, msg)];
               objects := objects s |}).

Definition record (c : Call) (ok : bool) (s : State) : State :=
  {| calls := calls s ++ [{| ev_call := c; ev_ok := ok |}];
     reports := reports s; objects := objects s |}.

(** One awaited request. *)
Definition request {R} (c : Call) (answer : History -> Reply R) : M R :=
  fun s =>
    match answer (calls s) with
    | Resolved r => (Returned r, record c true s)
    | Rejected e => (Thrown e, record c false s)
    end.

Definition emptySchema : CollectionSchema :=
  {| schema_name := ""; schema_fields := []; schema_rest := ∅ |}.

Definition readObject (l : nat) : M CollectionSchema :=
  fun s => (Returned (default emptySchema (objects s !! l)), s).

(** [{ ...o }]: a new object with the properties of [o]. *)
Definition spread (l : nat) : M nat :=
  fun s =>
    let l' := fresh (dom (objects s)) in
    (Returned l',
     {| calls := calls s; reports := reports s;
        objects := <[l' := default emptySchema (objects s !! l)]> (objects s) |}).

(** The object [o] once [o.name = n] has been executed. *)
Definition withName (o : CollectionSchema) (n : string) : CollectionSchema :=
  {| schema_name := n; schema_fields := schema_fields o;
     schema_rest := schema_rest o |}.

(** [o.name = n] on the object at address [l]. *)
Definition assignName (l : nat) (n : string) : M unit :=
  fun s =>
    (Returned tt,
     {| calls := calls s; reports := reports s;
        objects := alter (fun o => withName o n) l (objects s) |}).

Definition ten : value := VScalar (SNum (Dec false 10 0)).

(** [a || b] on a property that may be missing. *)
Definition orElse (a : option value) (b : value) : value :=
  match a with
  | Some v => if truthy v then v else b
  | None => b
  end.

(** ToBoolean on a string that may be undefined. *)
Definition nameGiven (n : option string) : option string :=
  match n with
  | Some s => if String.eqb s "" then None else Some s
  | None => None
  end.

(** Modelled from the spec: [utils.isObjectEmpty] of [lib/utils.js], which
    is not among the sources; an object is empty when it has no own
    property, which for the document is when no marker was harvested. *)
Definition isObjectEmpty (doc : document) : bool :=
  Nat.eqb (size doc) 0.

(** ** The plugin *)

Section Plugin.

Variable W : World.

(** The configured [generateNewCollectionName]; its default,
    [utils.generateNewCollectionName], is in [lib/utils.js]. *)
Variable generateNewCollectionName : CollectionSchema -> string.

(** The callback of [each] (lines 37-56): the document is updated, or the
    run panics on a field the schema does not declare; the [return] that
    follows the panic is not reached.  For an array-typed field, line 51
    reads [typesenseDocument[attributeName]] and keeps what it finds when
    that is truthy: a member of [Object.prototype], which has no [push],
    or an own property that is not an array.  Line 52 then throws a
    TypeError. *)
Definition harvestOne (newCollectionSchema : nat) (doc : document)
    (m : Marker) : M document :=
  schema <- readObject newCollectionSchema ;;
  match findField (schema_fields schema) (attributeName m) with
  | None => panic (MsgUnknownField (attributeName m))
  | Some fieldDefinition =>
      let v := typeCastValue fieldDefinition (attributeValue m) in
      if isArrayType fieldDefinition then
        match getProperty doc (attributeName m) with
        | Inherited => throw notAFunction
        | Own _ | Missing =>
            match orElse (doc !! attributeName m) (VArray []) with
            | VArray xs => ret (<[attributeName m := VArray (xs ++ [v])]> doc)
            | VScalar _ => throw notAFunction
            end
        end
      else ret (setProperty doc (attributeName m) (VScalar v))
  end.

Fixpoint harvest (newCollectionSchema : nat) (doc : document)
    (ms : list Marker) : M document :=
  match ms with
  | [] => ret doc
  | m :: ms' =>
      doc' <- harvestOne newCollectionSchema doc m ;;
      harvest newCollectionSchema doc' ms'
  end.

(** Lines 65-67, the document that is submitted for a harvested one:
    [page_path] is set, and [page_priority_score] is
    [typesenseDocument["page_priority_score"] || 10]. *)
Definition complete (wwwPath : string) (doc : document) : document :=
  let doc1 := <["page_path" := VScalar (SStr wwwPath)]> doc in
  <["page_priority_score" := orElse (doc1 !! "page_priority_score") ten]> doc1.

Definition indexContentInTypesense (fileContents wwwPath : string)
    (newCollectionSchema : nat) : M unit :=
  typesenseDocument <- harvest newCollectionSchema ∅ (w_select W fileContents) ;;
  if isObjectEmpty typesenseDocument then
    report Warn MsgNoMarkers
  else
    let typesenseDocument := complete wwwPath typesenseDocument in
    tryCatch
      (report Verbose (MsgCreatingDocument typesenseDocument) ;;
       schema <- readObject newCollectionSchema ;;
       request (DocumentCreate (schema_name schema) typesenseDocument)
         (fun h => w_documentCreate W h (schema_name schema) typesenseDocument) ;;
       report Verbose MsgDocumentCreated)
      (fun error => panic (MsgCouldNotCreateDocument error)).

(** Lines 91-99; [Object.values(response.synonyms || {})] is the list of
    the rules of the reply, or no rule when the reply has none. *)
Definition getExistingSynonyms (collectionName : string) : M (list Synonym) :=
  tryCatch
    (response <- request (SynonymsRetrieve collectionName)
                   (fun h => w_synonymsRetrieve W h collectionName) ;;
     ret (default [] response))
    (fun error =>
       report ConsoleWarn (MsgFailedToRetrieveSynonyms collectionName error) ;;
       ret []).

(** Lines 102-112: the [try] is inside the loop. *)
Fixpoint upsertSynonyms (collectionName : string) (synonyms : list Synonym)
    : M unit :=
  match synonyms with
  | [] => ret tt
  | synonym :: rest =>
      tryCatch
        (request (SynonymUpsert collectionName (synonym_id synonym)
                    (synonym_synonyms synonym))
           (fun h => w_synonymUpsert W h collectionName (synonym_id synonym)
                       (synonym_synonyms synonym)))
        (fun error =>
           report ConsoleWarn
             (MsgFailedToUpsertSynonym (synonym_id synonym) error)) ;;
      upsertSynonyms collectionName rest
  end.

(** Lines 162-173, the population loop of [onPostBuild]. *)
Fixpoint indexFiles (rootDir : string) (newCollectionSchema : nat)
    (htmlFiles : list string) : M unit :=
  match htmlFiles with
  | [] => ret tt
  | file :: rest =>
      let wwwPath := removeSuffix "index.html" (removeFirst rootDir file) in
      report Verbose (MsgIndexing wwwPath) ;;
      fileContents <- request (ReadFile file) (fun h => w_readFile W h file) ;;
      indexContentInTypesense fileContents wwwPath newCollectionSchema ;;
      indexFiles rootDir newCollectionSchema rest
  end.

(** Lines 141-153, the discovery of the old generation and of its
    synonyms.  The two results are the variables [oldCollectionName] and
    [existingSynonyms] after the block: the alias lookup is the only
    statement of the block that throws and it precedes both assignments, so
    the handler leaves them at their initial values. *)
Definition discoverOld (alias : string) : M (option string * list Synonym) :=
  tryCatch
    (oldCollectionName <- request (AliasRetrieve alias)
                            (fun h => w_aliasRetrieve W h alias) ;;
     report Info (MsgOldCollectionName oldCollectionName) ;;
     match nameGiven oldCollectionName with
     | Some old =>
         report Info (MsgRetrievingSynonyms old) ;;
         existingSynonyms <- getExistingSynonyms old ;;
         report Info (MsgRetrievedSynonyms (length existingSynonyms)) ;;
         ret (oldCollectionName, existingSynonyms)
     | None => ret (oldCollectionName, [])
     end)
    (fun error =>
       report Warn (MsgDiscoveryFailed error) ;;
       ret (None, [])).

(** Lines 155-160. *)
Definition createNew (newCollectionName : string) (newCollectionSchema : nat)
    : M unit :=
  tryCatch
    (report Info (MsgCreatingCollection newCollectionName) ;;
     schema <- readObject newCollectionSchema ;;
     request (CollectionCreate schema) (fun h => w_collectionCreate W h schema))
    (fun error =>
       panic (MsgCouldNotCreateCollection newCollectionName error)).

(** Lines 175-185. *)
Definition carrySynonyms (newCollectionName : string)
    (existingSynonyms : list Synonym) : M unit :=
  if (0 <? length existingSynonyms)%nat then
    report Info (MsgUpsertingSynonyms (length existingSynonyms)) ;;
    tryCatch
      (upsertSynonyms newCollectionName existingSynonyms ;;
       report Info MsgUpsertedSynonyms)
      (fun error => report Error (MsgErrorUpsertingSynonyms error))
  else report Info MsgNoSynonyms.

(** Lines 187-195: a rejected upsert is reported, and the run goes on. *)
Definition swapAlias (alias newCollectionName : string) : M unit :=
  tryCatch
    (report Info (MsgUpsertingAlias alias newCollectionName) ;;
     request (AliasUpsert alias newCollectionName)
       (fun h => w_aliasUpsert W h alias newCollectionName) ;;
     report Info MsgUpsertedAlias)
    (fun error =>
       report Error (MsgCouldNotUpsertAlias alias newCollectionName error)).

(** Lines 197-205: guarded by [if (oldCollectionName)] alone. *)
Definition deleteOld (oldCollectionName : option string) : M unit :=
  match nameGiven oldCollectionName with
  | Some old =>
      tryCatch
        (report Info (MsgDeletingOld old) ;;
         request (CollectionDelete old) (fun h => w_collectionDelete W h old) ;;
         report Info MsgDeletedOld)
        (fun error => report Error (MsgCouldNotDeleteOld old error))
  | None => ret tt
  end.

(** [exports.onPostBuild]; [collectionSchema] is the address of the
    caller's object.  The client is built from the connection descriptor
    before the first request and holds no state of its own. *)
Definition onPostBuild (collectionSchema : nat) (publicDir : string)
    (rootDir : option string) : M unit :=
  report Info MsgStarting ;;
  let rootDir := default publicDir (nameGiven rootDir) in
  htmlFiles <- request (ListHtmlFiles rootDir)
                 (fun h => w_listHtmlFiles W h rootDir) ;;
  base <- readObject collectionSchema ;;
  let newCollectionName := generateNewCollectionName base in
  newCollectionSchema <- spread collectionSchema ;;
  assignName newCollectionSchema newCollectionName ;;
  report Info (MsgNewCollectionName newCollectionName) ;;
  alias <- readObject collectionSchema ;;
  found <- discoverOld (schema_name alias) ;;
  let '(oldCollectionName, existingSynonyms) := found in
  createNew newCollectionName newCollectionSchema ;;
  indexFiles rootDir newCollectionSchema htmlFiles ;;
  carrySynonyms newCollectionName existingSynonyms ;;
  alias <- readObject collectionSchema ;;
  swapAlias (schema_name alias) newCollectionName ;;
  deleteOld oldCollectionName ;;
  alias <- readObject collectionSchema ;;
  report Info (MsgIndexed (schema_name alias) newCollectionName).

End Plugin.

(** The state a run starts in: nothing requested, nothing reported, and
    the caller's schema object at address 0. *)
Definition initial (collectionSchema : CollectionSchema) : State :=
  {| calls := []; reports := []; objects := {[ 0%nat := collectionSchema ]} |}.

Definition run (W : World) (gen : CollectionSchema -> string)
    (collectionSchema : CollectionSchema) (publicDir : string)
    (rootDir : option string) : outcome unit * State :=
  onPostBuild W gen 0 publicDir rootDir (initial collectionSchema).

(** ** Scripted worlds

    A world given by a site, the current target of the alias, the synonyms
    of the live collection, and the requests that are rejected. *)

Record Page := {
  page_path : string;
  page_html : string;
  page_markers : list Marker;
}.

Record Script := {
  sc_pages : list Page;
  sc_alias : option string;
  sc_synonyms : list Synonym;
  sc_rejects : Call -> bool;
}.

Definition answer {R} (sc : Script) (c : Call) (r : R) : Reply R :=
  if sc_rejects sc c then Rejected "request failed" else Resolved r.

Definition scripted (sc : Script) : World :=
  {| w_listHtmlFiles := fun _ d =>
       answer sc (ListHtmlFiles d) (map page_path (sc_pages sc));
     w_readFile := fun _ f =>
       match List.find (fun p => String.eqb (page_path p) f) (sc_pages sc) with
       | Some p => answer sc (ReadFile f) (page_html p)
       | None => Rejected "ENOENT"
       end;
     w_aliasRetrieve := fun _ a =>
       match sc_alias sc with
       | Some t => answer sc (AliasRetrieve a) (Some t)
       | None => Rejected "Not Found"
       end;
     w_synonymsRetrieve := fun _ c =>
       answer sc (SynonymsRetrieve c) (Some (sc_synonyms sc));
     w_collectionCreate := fun _ s => answer sc (CollectionCreate s) tt;
     w_documentCreate := fun _ c d => answer sc (DocumentCreate c d) tt;
     w_synonymUpsert := fun _ c i t => answer sc (SynonymUpsert c i t) tt;
     w_aliasUpsert := fun _ a c => answer sc (AliasUpsert a c) tt;
     w_collectionDelete := fun _ c => answer sc (CollectionDelete c) tt;
     w_select := fun html =>
       match List.find (fun p => String.eqb (page_html p) html) (sc_pages sc) with
       | Some p => page_markers p
       | None => []
       end |}.

Definition isAliasUpsert (c : Call) : bool :=
  match c with AliasUpsert _ _ => true | _ => false end.
Definition isCollectionCreate (c : Call) : bool :=
  match c with CollectionCreate _ => true | _ => false end.
Definition isCollectionDelete (c : Call) : bool :=
  match c with CollectionDelete _ => true | _ => false end.
Definition isDocumentCreate (c : Call) : bool :=
  match c with DocumentCreate _ _ => true | _ => false end.
Definition isSynonymUpsert (c : Call) : bool :=
  match c with SynonymUpsert _ _ _ => true | _ => false end.

(** The requests that change the engine. *)
Definition mutates (c : Call) : bool :=
  match c with
  | ListHtmlFiles _ | ReadFile _ | AliasRetrieve _ | SynonymsRetrieve _ => false
  | _ => true
  end.

(** The scenario of the documentation: a collection [docs] with a title and
    a list of tags, and one page with two tags. *)
Definition docsSchema : CollectionSchema :=
  {| schema_name := "docs";
     schema_fields :=
       [ {| field_name := "title"; field_type := "string" |};
         {| field_name := "tags"; field_type := "string[]" |};
         {| field_name := "page_path"; field_type := "string" |};
         {| field_name := "page_priority_score"; field_type := "int32" |} ];
     schema_rest := {[ "default_sorting_field" := "page_priority_score" ]} |}.

Definition nextName (s : CollectionSchema) : string := schema_name s ++ "_2".

Definition tagsPage : Page :=
  {| page_path := "/public/blog/index.html";
     page_html := "<p data-typesense-field=tags>go</p><p data-typesense-field=tags>rust</p>";
     page_markers :=
       [ {| attributeName := "tags"; attributeValue := "go" |};
         {| attributeName := "tags"; attributeValue := "rust" |} ] |}.

Definition liveSite (rejects : Call -> bool) : Script :=
  {| sc_pages := [tagsPage];
     sc_alias := Some "docs_1";
     sc_synonyms := [ {| synonym_id := "s1"; synonym_synonyms := ["go"; "golang"] |} ];
     sc_rejects := rejects |}.


(** ** More pages and sites *)

Definition boolField : FieldDefinition :=
  {| field_name := "published"; field_type := "bool" |}.

Definition plainPage : Page :=
  {| page_path := "/public/about/index.html";
     page_html := "<p>about</p>";
     page_markers := [] |}.

Definition authorPage : Page :=
  {| page_path := "/public/post/index.html";
     page_html := "<p data-typesense-field=author>ann</p>";
     page_markers := [ {| attributeName := "author"; attributeValue := "ann" |} ] |}.

Definition siteOf (pages : list Page) : Script :=
  {| sc_pages := pages; sc_alias := None; sc_synonyms := [];
     sc_rejects := fun _ => false |}.

Definition zeroScorePage : Page :=
  {| page_path := "/public/draft/index.html";
     page_html := "<i data-typesense-field=page_priority_score>0</i>";
     page_markers :=
       [ {| attributeName := "page_priority_score"; attributeValue := "0" |} ] |}.

Definition retitledPage : list Marker :=
  [ {| attributeName := "title"; attributeValue := "Draft" |};
    {| attributeName := "tags"; attributeValue := "go" |};
    {| attributeName := "title"; attributeValue := "Final" |} ].

(** A schema with fields that have the names of members of
    [Object.prototype], and pages that mark them. *)
Definition objectSchema : CollectionSchema :=
  {| schema_name := "things";
     schema_fields :=
       [ {| field_name := "constructor"; field_type := "string[]" |};
         {| field_name := "__proto__"; field_type := "string" |};
         {| field_name := "page_path"; field_type := "string" |};
         {| field_name := "page_priority_score"; field_type := "int32" |} ];
     schema_rest := ∅ |}.

Definition builtPage : Page :=
  {| page_path := "/public/thing/index.html";
     page_html := "<b data-typesense-field=constructor>Ann</b><i data-typesense-field=author>ann</i>";
     page_markers :=
       [ {| attributeName := "constructor"; attributeValue := "Ann" |};
         {| attributeName := "author"; attributeValue := "ann" |} ] |}.







(** ** The vocabulary of the properties *)

Local Open Scope list_scope.

(** The boolean types of the engine: [bool] and its array form. *)
Definition declaredBoolean (f : FieldDefinition) : Prop :=
  field_type f = "bool" \/ field_type f = "bool[]".

(** The fields of the schema object at an address. *)
Definition fieldsAt (s : State) (l : nat) : list FieldDefinition :=
  schema_fields (default emptySchema (objects s !! l)).

(** The texts of the markers that name a field, in document order. *)
Definition valuesOf (n : string) (ms : list Marker) : list string :=
  map attributeValue (filter (fun m => attributeName m = n) ms).

(** The schema declares the field a marker names. *)
Definition declared (fields : list FieldDefinition) (m : Marker) : Prop :=
  is_Some (findField fields (attributeName m)).

(** The array a document holds for a field, if it holds one. *)
Definition arrayAt (doc : document) (n : string) : list scalar :=
  match doc !! n with
  | Some (VArray xs) => xs
  | _ => []
  end.

(** What the document holds for an array-typed field is an array. *)
Definition arraysAreArrays (fields : list FieldDefinition) (doc : document)
    : Prop :=
  forall n fd v,
    findField fields n = Some fd -> isArrayType fd = true ->
    doc !! n = Some v -> exists xs, v = VArray xs.

(** The marker names an array-typed field that has the name of a member
    of [Object.prototype]: harvesting it throws. *)
Definition throwsOn (fields : list FieldDefinition) (m : Marker) : bool :=
  match findField fields (attributeName m) with
  | Some fd => isArrayType fd && inherited (attributeName m)
  | None => false
  end.

(** The own properties a document can have while a page is harvested: an
    array under an array-typed field, none under an array-typed field that
    has the name of a member of [Object.prototype], none under
    [__proto__]. *)
Definition settled (fields : list FieldDefinition) (doc : document) : Prop :=
  arraysAreArrays fields doc /\
  (forall n fd,
     findField fields n = Some fd -> isArrayType fd = true ->
     inherited n = true -> doc !! n = None) /\
  doc !! "__proto__" = None.

(** What one declared marker stores under its name. *)
Definition stored (fd : FieldDefinition) (doc : document) (m : Marker)
    : value :=
  if isArrayType fd
  then VArray (arrayAt doc (attributeName m)
                 ++ [typeCastValue fd (attributeValue m)])
  else VScalar (typeCastValue fd (attributeValue m)).

(** The document once a declared marker has been harvested into it. *)
Definition after (fd : FieldDefinition) (doc : document) (m : Marker)
    : document :=
  if isArrayType fd then <[attributeName m := stored fd doc m]> doc
  else setProperty doc (attributeName m) (stored fd doc m).

(** What a document holds for a declared field once the markers with the
    texts [vs] for that field have been harvested into [doc]. *)
Definition held (fd : FieldDefinition) (doc : document) (n : string)
    (vs : list string) : option value :=
  if isArrayType fd then
    match vs with
    | [] => doc !! n
    | _ => Some (VArray (arrayAt doc n ++ map (typeCastValue fd) vs))
    end
  else if String.eqb n "__proto__" then doc !! n
  else
    match last vs with
    | Some v => Some (VScalar (typeCastValue fd v))
    | None => doc !! n
    end.

(** The name of the schema object at an address. *)
Definition nameAt (s : State) (l : nat) : string :=
  schema_name (default emptySchema (objects s !! l)).

(** The request that replays a rule onto a collection. *)
Definition upsertOf (collectionName : string) (y : Synonym) : Call :=
  SynonymUpsert collectionName (synonym_id y) (synonym_synonyms y).

Definition rejected (e : Event) : bool := negb (ev_ok e).

Definition ev (c : Call) (ok : bool) : Event := {| ev_call := c; ev_ok := ok |}.

(** The requests of the population loop. *)
Definition populates (e : Event) : bool :=
  match ev_call e with
  | ReadFile _ | DocumentCreate _ _ => true
  | _ => false
  end.

(** The histories a run can leave behind, for a root directory, an alias,
    and the name and the schema of the new collection. *)
Section Shape.

Variables (root alias newName : string) (newSchema : CollectionSchema).

(** The requests up to the discovery of the old generation, and the name
    that was found for it. *)
Inductive Discovery : option string -> History -> Prop :=
| AliasMissing :
    Discovery None
      [ev (ListHtmlFiles root) true; ev (AliasRetrieve alias) false]
| AliasWithoutTarget old :
    nameGiven old = None ->
    Discovery old
      [ev (ListHtmlFiles root) true; ev (AliasRetrieve alias) true]
| AliasWithTarget old o okS :
    nameGiven old = Some o ->
    Discovery old
      [ev (ListHtmlFiles root) true; ev (AliasRetrieve alias) true;
       ev (SynonymsRetrieve o) okS].

(** The requests of the last step. *)
Inductive Deletion : option string -> History -> Prop :=
| NothingToDelete old : nameGiven old = None -> Deletion old []
| DeleteIssued old o ok :
    nameGiven old = Some o -> Deletion old [ev (CollectionDelete o) ok].

(** How a run ends, and the requests it has made by then. *)
Inductive RunShape : outcome unit -> History -> Prop :=
| ListingFailed e :
    RunShape (Thrown e) [ev (ListHtmlFiles root) false]
| CreateFailed old found :
    Discovery old found ->
    RunShape Exited (found ++ [ev (CollectionCreate newSchema) false])
| PopulationAborted old found idx o :
    Discovery old found ->
    Forall (fun e => populates e = true) idx ->
    o <> Returned tt ->
    RunShape o (found ++ ev (CollectionCreate newSchema) true :: idx)
| Completed old found idx syn okA del :
    Discovery old found ->
    Forall (fun e => populates e = true) idx ->
    Forall (fun e => isSynonymUpsert (ev_call e) = true) syn ->
    Deletion old del ->
    RunShape (Returned tt)
      (found ++ ev (CollectionCreate newSchema) true
         :: idx ++ syn ++ ev (AliasUpsert alias newName) okA :: del).

End Shape.

Definition creates (e : Event) : bool := isCollectionCreate (ev_call e).
Definition readsOnly (e : Event) : bool := negb (mutates (ev_call e)).

(** ** The earlier version of the page indexer

    The earlier revision of [gatsby-node.js] among the sources has no
    coercion and does not look at the schema: the [each] callback stores the
    text of every marker under its name, and the document goes to the
    collection whose name the caller passes.  Lines 31-33 of that revision
    are lines 65-67 of the current one, [complete]. *)

Module Earlier.
Section Plugin.

Variable W : World.

(** The callback of [each]: [typesenseDocument[attributeName] = attributeValue]. *)
Definition harvestOne (typesenseDocument : document) (m : Marker) : document :=
  setProperty typesenseDocument (attributeName m)
    (VScalar (SStr (attributeValue m))).

Definition harvest (ms : list Marker) : document :=
  fold_left harvestOne ms ∅.

Definition indexContentInTypesense
    (fileContents wwwPath newCollectionName : string) : M unit :=
  let typesenseDocument := harvest (w_select W fileContents) in
  if isObjectEmpty typesenseDocument then
    report Warn MsgNoMarkers
  else
    let typesenseDocument := complete wwwPath typesenseDocument in
    tryCatch
      (report Verbose (MsgCreatingDocument typesenseDocument) ;;
       request (DocumentCreate newCollectionName typesenseDocument)
         (fun h => w_documentCreate W h newCollectionName typesenseDocument) ;;
       report Verbose MsgDocumentCreated)
      (fun error => panic (MsgCouldNotCreateDocument error)).

End Plugin.
End Earlier.

(** ** The vocabulary of the further properties *)

(** The decimal numeral of a natural number, as [String(n)] prints it. *)
Definition numeral (n : N) : string :=
  DecimalString.NilEmpty.string_of_uint (N.to_uint n).

(** A text of white space only. *)
Definition blank (ws : string) : Prop := trimStart ws = "".

(** The sign written before a numeral. *)
Definition signText (neg : bool) : string := if neg then "-" else "".

(** What may follow a numeral: nothing, or a character that is neither a
    digit nor a letter. *)
Definition endsNumeral (tail : string) : Prop :=
  match tail with
  | String c _ => digitValue c = None
  | EmptyString => True
  end.

(** The types that [typeCastValue] parses as numbers. *)
Definition numericType (f : FieldDefinition) : bool :=
  includes "int" (field_type f) || includes "float" (field_type f).

(** The character occurs in the string. *)
Fixpoint occurs (c : ascii) (s : string) : bool :=
  match s with
  | String a r => Ascii.eqb a c || occurs c r
  | EmptyString => false
  end.

(** Fields and pages of the examples. *)
Definition intField : FieldDefinition :=
  {| field_name := "stars"; field_type := "int32" |}.

Definition floatField : FieldDefinition :=
  {| field_name := "rating"; field_type := "float" |}.

(** The text of a marker, as the earlier version stores it. *)
Definition rawText (v : string) : value := VScalar (SStr v).

(** [file.replace(rootDir, "").replace(/index\.html$/, "")], the path under
    which the population loop indexes a file. *)
Definition wwwPathOf (rootDir file : string) : string :=
  removeSuffix "index.html" (removeFirst rootDir file).

(** The event creates, in a collection, a document that has the given
    [page_path] and a truthy [page_priority_score]. *)
Definition submits (collection path : string) (e : Event) : Prop :=
  exists (d : document) v,
    ev_call e = DocumentCreate collection d /\
    d !! "page_path" = Some (VScalar (SStr path)) /\
    d !! "page_priority_score" = Some v /\ truthy v = true.

(** The request of the event was resolved. *)
Definition accepted (e : Event) : Prop := ev_ok e = true.

(** The files read by the requests of a history, in order. *)
Definition readOf (e : Event) : option string :=
  match ev_call e with ReadFile f => Some f | _ => None end.

Definition readsOf (evs : History) : list string := omap readOf evs.

(** A request that writes a document or a synonym writes it to the given
    collection. *)
Definition targets (collection : string) (e : Event) : Prop :=
  match ev_call e with
  | DocumentCreate c _ | SynonymUpsert c _ _ => c = collection
  | _ => True
  end.

(** The request writes a document or a synonym to the given collection. *)
Definition writesTo (collection : string) (e : Event) : Prop :=
  match ev_call e with
  | DocumentCreate c _ | SynonymUpsert c _ _ => c = collection
  | _ => False
  end.

(** The history of a run once the files are listed. *)
Definition afterListing (root : string) : History :=
  [ev (ListHtmlFiles root) true].

(** The old generation a run finds: the collection the alias lookup
    replies with, when the lookup resolves and names one. *)
Definition aliasTarget (W : World) (root alias : string) : option string :=
  match w_aliasRetrieve W (afterListing root) alias with
  | Resolved t => nameGiven t
  | Rejected _ => None
  end.

(** The synonym rules a run carries forward: those the retrieval from the
    old generation replies with. *)
Definition carriedRules (W : World) (root alias : string) : list Synonym :=
  match aliasTarget W root alias with
  | Some old =>
      match w_synonymsRetrieve W
              (afterListing root ++ [ev (AliasRetrieve alias) true]) old with
      | Resolved r => default [] r
      | Rejected _ => []
      end
  | None => []
  end.

(** The requests of the discovery of the old generation. *)
Definition discoveryCalls (W : World) (root alias : string) : list Call :=
  AliasRetrieve alias ::
  match aliasTarget W root alias with
  | Some old => [SynonymsRetrieve old]
  | None => []
  end.

(** The requests of the last step of a run that returns. *)
Definition deletionCalls (W : World) (root alias : string) : list Call :=
  match aliasTarget W root alias with
  | Some old => [CollectionDelete old]
  | None => []
  end.

(** The requests that follow the population: replaying the synonyms,
    swapping the alias, deleting the old collection. *)
Definition finishing (c : Call) : bool :=
  match c with
  | SynonymUpsert _ _ _ | AliasUpsert _ _ | CollectionDelete _ => true
  | _ => false
  end.

(** The requests about an old generation and its synonyms. *)
Definition concernsOld (c : Call) : bool :=
  match c with
  | SynonymsRetrieve _ | SynonymUpsert _ _ _ | CollectionDelete _ => true
  | _ => false
  end.

(** The requests of the population loop. *)
Definition populating (c : Call) : bool :=
  match c with ReadFile _ | DocumentCreate _ _ => true | _ => false end.

Definition swappedPair : list Marker :=
  [ {| attributeName := "tags"; attributeValue := "go" |};
    {| attributeName := "title"; attributeValue := "Draft" |};
    {| attributeName := "tags"; attributeValue := "rust" |} ].

Definition sortedPair : list Marker :=
  [ {| attributeName := "title"; attributeValue := "Draft" |};
    {| attributeName := "tags"; attributeValue := "go" |};
    {| attributeName := "tags"; attributeValue := "rust" |} ].

(** * Properties *)

(** ** The string and number primitives on examples *)

Example parseInt_42 : parseInt "  42px" = Dec false 42 0.
Proof. reflexivity. Qed.

Example parseInt_hex : parseInt "0x1F" = Dec false 31 0.
Proof. reflexivity. Qed.

Example parseInt_none : parseInt "abc" = NaN.
Proof. reflexivity. Qed.

Example parseFloat_frac : parseFloat "-3.25e1x" = Dec true 325 (-1).
Proof. reflexivity. Qed.

Example parseFloat_dot : parseFloat "." = NaN.
Proof. reflexivity. Qed.

Example parseInt_rounds :
  parseInt "9007199254740993" = Dec false 9007199254740992 0 /\
  parseInt "9007199254740993" = parseInt "9007199254740992".
Proof. split; vm_compute; reflexivity. Qed.

Example parseFloat_tenth :
  parseFloat "0.1" =
  Dec false 1000000000000000055511151231257827021181583404541015625 (-55).
Proof. vm_compute. reflexivity. Qed.

Example parseFloat_same : parseFloat "1.0e1" = parseInt "10".
Proof. vm_compute. reflexivity. Qed.

Example parseFloat_overflow :
  parseFloat "1.7976931348623159e308" = Infinity false /\
  parseFloat "-1e400" = Infinity true.
Proof. split; vm_compute; reflexivity. Qed.

Example parseFloat_underflow : parseFloat "2e-324" = Dec false 0 0.
Proof. vm_compute. reflexivity. Qed.

Example trim_both : trim "  a b  " = "a b".
Proof. reflexivity. Qed.

Example removeSuffix_index : removeSuffix "index.html" "/blog/index.html" = "/blog/".
Proof. reflexivity. Qed.

Example removeFirst_root : removeFirst "/pub" "/pub/blog/index.html" = "/blog/index.html".
Proof. reflexivity. Qed.

(** ** Coercion of boolean fields *)

Lemma eqIgnoreCase_toLowerCase (s t : string) :
  eqIgnoreCase s t <-> toLowerCase s = toLowerCase t.
Proof.
  split.
  - induction 1 as [|a b s t Hab _ IH]; simpl; congruence.
  - revert t. induction s as [|a s IH]; intros [|b t] H; simpl in H;
      try discriminate.
    + constructor.
    + injection H as Hab Hst. constructor; auto.
Qed.

Lemma declaredBoolean_branch (f : FieldDefinition) :
  declaredBoolean f ->
  includes "int" (field_type f) = false /\
  includes "float" (field_type f) = false /\
  includes "bool" (field_type f) = true.
Proof. intros [H | H]; rewrite H; repeat split; reflexivity. Qed.

(** C5.  For a field declared boolean and any raw text, [typeCastValue]
    returns false when the text equals "false" up to case, or is the
    literal "0", or is empty once trimmed; and returns true for every other
    text, whose trimmed form is then non-empty. *)
Theorem typeCastValue_boolean (f : FieldDefinition) (v : string) :
  declaredBoolean f ->
  (eqIgnoreCase v "false" \/ v = "0" \/ trim v = "" ->
   typeCastValue f v = SBool false) /\
  (~ eqIgnoreCase v "false" -> v <> "0" -> trim v <> "" ->
   typeCastValue f v = SBool true).
Proof.
  intros Hb. destruct (declaredBoolean_branch f Hb) as (Hi & Hf & Hbool).
  unfold typeCastValue. rewrite Hi, Hf, Hbool.
  destruct (String.eqb_spec (toLowerCase v) "false") as [Hl | Hl].
  - split; [reflexivity |].
    intros Hn. exfalso. apply Hn. apply eqIgnoreCase_toLowerCase. exact Hl.
  - destruct (String.eqb_spec v "0") as [H0 | H0].
    + split; [reflexivity | congruence].
    + destruct (String.eqb_spec (trim v) "") as [Ht | Ht]; simpl.
      * split; [reflexivity | congruence].
      * split; [| reflexivity].
        intros [H | [H | H]]; [| congruence | congruence].
        exfalso. apply Hl. apply eqIgnoreCase_toLowerCase in H. exact H.
Qed.

Lemma typeCastValue_boolean_witness :
  declaredBoolean boolField /\
  typeCastValue boolField "False" = SBool false /\
  typeCastValue boolField "0" = SBool false /\
  typeCastValue boolField "   " = SBool false /\
  typeCastValue boolField " no " = SBool true.
Proof.
  assert (Hb : declaredBoolean boolField) by (left; reflexivity).
  split; [exact Hb |].
  split; [| split; [| split]].
  - apply (proj1 (typeCastValue_boolean boolField "False" Hb)).
    left. repeat constructor.
  - apply (proj1 (typeCastValue_boolean boolField "0" Hb)).
    right; left; reflexivity.
  - apply (proj1 (typeCastValue_boolean boolField "   " Hb)).
    right; right; reflexivity.
  - apply (proj2 (typeCastValue_boolean boolField " no " Hb)).
    + intros H. apply eqIgnoreCase_toLowerCase in H. discriminate H.
    + discriminate.
    + discriminate.
Defined.

(** ** Harvesting *)

Lemma settled_empty fields : settled fields ∅.
Proof.
  split; [| split].
  - intros n fd v _ _ H. rewrite lookup_empty in H. discriminate.
  - intros n fd _ _ _. apply lookup_empty.
  - apply lookup_empty.
Qed.

Lemma setProperty_spec (doc : document) n v :
  doc !! "__proto__" = None ->
  setProperty doc n v =
  if String.eqb n "__proto__" then doc else <[n := v]> doc.
Proof.
  intros Hp. unfold setProperty, getProperty.
  destruct (String.eqb_spec n "__proto__") as [-> | Hne].
  - rewrite Hp. reflexivity.
  - destruct (doc !! n); [reflexivity |]. destruct (inherited n); reflexivity.
Qed.

Lemma after_other fd (doc : document) m n :
  doc !! "__proto__" = None ->
  attributeName m <> n ->
  after fd doc m !! n = doc !! n.
Proof.
  intros Hp Hne. unfold after. destruct (isArrayType fd).
  - apply lookup_insert_ne. exact Hne.
  - rewrite setProperty_spec by exact Hp.
    destruct (String.eqb (attributeName m) "__proto__"); [reflexivity |].
    apply lookup_insert_ne. exact Hne.
Qed.

Lemma harvestOne_declared l doc m s fd :
  findField (fieldsAt s l) (attributeName m) = Some fd ->
  throwsOn (fieldsAt s l) m = false ->
  settled (fieldsAt s l) doc ->
  harvestOne l doc m s = (Returned (after fd doc m), s)
  /\ settled (fieldsAt s l) (after fd doc m).
Proof.
  intros Hf Ht (Harr & Hinh & Hproto). unfold fieldsAt in *.
  unfold throwsOn in Ht. rewrite Hf in Ht.
  split.
  - unfold harvestOne, bind, readObject, after, stored, arrayAt, getProperty.
    rewrite Hf.
    destruct (isArrayType fd) eqn:Ha; [| reflexivity].
    cbn [andb] in Ht.
    destruct (doc !! attributeName m) as [v |] eqn:Hd.
    + destruct (Harr _ _ _ Hf Ha Hd) as [xs ->]. reflexivity.
    + rewrite Ht. reflexivity.
  - unfold after. destruct (isArrayType fd) eqn:Ha.
    + cbn [andb] in Ht. split; [| split].
      * intros n fd' v Hf' Ha' Hl.
        destruct (decide (attributeName m = n)) as [<- | Hne].
        -- rewrite lookup_insert_eq in Hl. injection Hl as <-.
           unfold stored. rewrite Ha. eauto.
        -- rewrite lookup_insert_ne in Hl by exact Hne. eauto.
      * intros n fd' Hf' Ha' Hi. rewrite lookup_insert_ne; [eauto |].
        intros E. rewrite E in Ht. congruence.
      * rewrite lookup_insert_ne; [exact Hproto |].
        intros E. rewrite E in Ht. discriminate Ht.
    + rewrite setProperty_spec by exact Hproto.
      destruct (String.eqb_spec (attributeName m) "__proto__") as [E | Hne];
        [split; [| split]; assumption |].
      assert (Hfresh : forall n fd',
                findField (schema_fields (default emptySchema (objects s !! l))) n
                  = Some fd' ->
                isArrayType fd' = true -> attributeName m <> n).
      { intros n fd' Hf' Ha' E. rewrite E, Hf' in Hf. congruence. }
      split; [| split].
      * intros n fd' v Hf' Ha' Hl.
        rewrite lookup_insert_ne in Hl by (eapply Hfresh; eassumption). eauto.
      * intros n fd' Hf' Ha' Hi.
        rewrite lookup_insert_ne by (eapply Hfresh; eassumption). eauto.
      * rewrite lookup_insert_ne by exact Hne. exact Hproto.
Qed.

Lemma harvestOne_throws l doc m s :
  throwsOn (fieldsAt s l) m = true ->
  settled (fieldsAt s l) doc ->
  harvestOne l doc m s = (Thrown notAFunction, s).
Proof.
  intros Ht (_ & Hinh & _). unfold fieldsAt, throwsOn in *.
  destruct (findField _ (attributeName m)) as [fd |] eqn:Hf; [| discriminate].
  apply andb_prop in Ht as [Ha Hi].
  unfold harvestOne, bind, readObject, getProperty. rewrite Hf, Ha.
  rewrite (Hinh _ _ Hf Ha Hi), Hi. reflexivity.
Qed.

Lemma harvestOne_undeclared l doc m s :
  findField (fieldsAt s l) (attributeName m) = None ->
  harvestOne l doc m s = panic (MsgUnknownField (attributeName m)) s.
Proof.
  intros Hf. unfold fieldsAt in Hf.
  unfold harvestOne, bind, readObject. rewrite Hf. reflexivity.
Qed.

Lemma valuesOf_cons n m ms :
  valuesOf n (m :: ms) =
  if decide (attributeName m = n) then attributeValue m :: valuesOf n ms
  else valuesOf n ms.
Proof.
  unfold valuesOf. rewrite filter_cons.
  destruct (decide (attributeName m = n)); reflexivity.
Qed.

Lemma valuesOf_nil_iff n ms :
  valuesOf n ms = [] <-> n ∉ map attributeName ms.
Proof.
  induction ms as [| m ms IH]; [split; [set_solver | reflexivity] |].
  rewrite valuesOf_cons. simpl. rewrite not_elem_of_cons.
  destruct (decide (attributeName m = n)) as [<- | Hne].
  - split; [discriminate | intros [H _]; congruence].
  - rewrite IH. split; [intros H; split; congruence | tauto].
Qed.

(** When every marker is declared and none names an array-typed field
    called like a member of [Object.prototype], the loop returns, leaves the
    state as it was, and the document holds for every declared field what
    [held] says. *)
Lemma harvest_returns l s ms : forall doc,
  Forall (declared (fieldsAt s l)) ms ->
  Forall (fun m => throwsOn (fieldsAt s l) m = false) ms ->
  settled (fieldsAt s l) doc ->
  exists doc',
    harvest l doc ms s = (Returned doc', s) /\
    settled (fieldsAt s l) doc' /\
    (forall n fd, findField (fieldsAt s l) n = Some fd ->
                  doc' !! n = held fd doc n (valuesOf n ms)) /\
    (forall n, findField (fieldsAt s l) n = None -> doc' !! n = doc !! n).
Proof.
  induction ms as [| m ms IH]; intros doc Hall Hno Hwf.
  - exists doc. split; [reflexivity |]. split; [exact Hwf |]. split.
    + intros n fd _. unfold held, valuesOf. simpl.
      destruct (isArrayType fd); [reflexivity |].
      destruct (String.eqb n "__proto__"); reflexivity.
    + reflexivity.
  - inversion Hall as [| ? ? [fdm Hm] Hrest]; subst.
    inversion Hno as [| ? ? Hnm Hnrest]; subst.
    destruct (harvestOne_declared l doc m s fdm Hm Hnm Hwf) as [Hone Hwf1].
    destruct (IH _ Hrest Hnrest Hwf1) as (doc' & Hrun & Hwf' & Hheld & Hother).
    pose proof (proj2 (proj2 Hwf)) as Hproto.
    exists doc'. split.
    { simpl. unfold bind. rewrite Hone. exact Hrun. }
    split; [exact Hwf' |]. split.
    + intros n fd Hn. rewrite (Hheld n fd Hn), valuesOf_cons.
      destruct (decide (attributeName m = n)) as [<- | Hne].
      * rewrite Hm in Hn. injection Hn as <-.
        unfold held, after, stored, arrayAt.
        destruct (isArrayType fdm) eqn:Ha.
        -- rewrite lookup_insert_eq.
           destruct (valuesOf (attributeName m) ms) as [| v vs]; simpl.
           ++ reflexivity.
           ++ rewrite <- app_assoc. reflexivity.
        -- rewrite setProperty_spec by exact Hproto.
           destruct (String.eqb (attributeName m) "__proto__"); [reflexivity |].
           rewrite lookup_insert_eq.
           destruct (valuesOf (attributeName m) ms) as [| v vs] eqn:Hv;
             [reflexivity |].
           change (last (attributeValue m :: v :: vs)) with (last (v :: vs)).
           destruct (last (v :: vs)) eqn:Hl; [reflexivity |].
           apply last_None in Hl. discriminate.
      * unfold held, arrayAt. rewrite (after_other _ _ _ _ Hproto Hne).
        reflexivity.
    + intros n Hn. rewrite (Hother n Hn).
      apply (after_other _ _ _ _ Hproto). intros <-. rewrite Hm in Hn.
      discriminate.
Qed.

(** The loop stops at the first marker that is not declared, with a
    panic, or that names an array-typed field called like a member of
    [Object.prototype], with a TypeError; either way nothing was
    requested. *)
Lemma harvest_stops l s ms : forall doc,
  Exists (fun m => ~ declared (fieldsAt s l) m \/
                   throwsOn (fieldsAt s l) m = true) ms ->
  settled (fieldsAt s l) doc ->
  (exists n,
     harvest l doc ms s = panic (MsgUnknownField n) s /\
     findField (fieldsAt s l) n = None /\
     n ∈ map attributeName ms) \/
  (harvest l doc ms s = (Thrown notAFunction, s) /\
   Exists (fun m => throwsOn (fieldsAt s l) m = true) ms).
Proof.
  induction ms as [| m ms IH]; intros doc Hex Hwf.
  - inversion Hex.
  - destruct (findField (fieldsAt s l) (attributeName m)) as [fdm |] eqn:Hm.
    + destruct (throwsOn (fieldsAt s l) m) eqn:Ht.
      * right. split; [| apply Exists_cons_hd; exact Ht].
        simpl. unfold bind. rewrite (harvestOne_throws l doc m s Ht Hwf).
        reflexivity.
      * destruct (harvestOne_declared l doc m s fdm Hm Ht Hwf) as [Hone Hwf1].
        assert (Hex' : Exists (fun m => ~ declared (fieldsAt s l) m \/
                                        throwsOn (fieldsAt s l) m = true) ms).
        { inversion Hex as [? ? [Hn | Hn] | ? ? Htl]; subst; [| | exact Htl].
          - exfalso. apply Hn. unfold declared. rewrite Hm. eauto.
          - congruence. }
        destruct (IH _ Hex' Hwf1) as [(n & Hrun & Hn & Hin) | [Hrun Hth]].
        -- left. exists n. split; [| split; [exact Hn |]].
           ++ simpl. unfold bind. rewrite Hone. exact Hrun.
           ++ simpl. right. exact Hin.
        -- right. split; [| apply Exists_cons_tl; exact Hth].
           simpl. unfold bind. rewrite Hone. exact Hrun.
    + left. exists (attributeName m). split; [| split; [exact Hm |]].
      * simpl. unfold bind. rewrite (harvestOne_undeclared l doc m s Hm).
        reflexivity.
      * simpl. left.
Qed.

(** When some marker is not declared, and no marker names an array-typed
    field called like a member of [Object.prototype], the loop panics on the
    first undeclared marker: the process exits, nothing was requested, and
    the one report added names the field. *)
Lemma harvest_panics l s ms doc :
  Exists (fun m => ~ declared (fieldsAt s l) m) ms ->
  Forall (fun m => throwsOn (fieldsAt s l) m = false) ms ->
  settled (fieldsAt s l) doc ->
  exists n,
    harvest l doc ms s = panic (MsgUnknownField n) s /\
    findField (fieldsAt s l) n = None /\
    n ∈ map attributeName ms.
Proof.
  intros Hex Hno Hwf.
  destruct (harvest_stops l s ms doc) as [Hp | [_ Hth]]; [| exact Hwf | exact Hp |].
  - eapply List.Exists_impl; [| exact Hex]. intros m Hm. left. exact Hm.
  - exfalso. apply Exists_exists in Hth as (m & Hin & Ht).
    rewrite Forall_forall in Hno. rewrite (Hno m Hin) in Ht. discriminate.
Qed.

(** When every marker is declared and one of them names an array-typed
    field called like a member of [Object.prototype], the loop throws. *)
Lemma harvest_throws l s ms doc :
  Forall (declared (fieldsAt s l)) ms ->
  Exists (fun m => throwsOn (fieldsAt s l) m = true) ms ->
  settled (fieldsAt s l) doc ->
  harvest l doc ms s = (Thrown notAFunction, s).
Proof.
  intros Hall Hex Hwf.
  destruct (harvest_stops l s ms doc) as [(n & _ & Hn & Hin) | [Hrun _]];
    [| exact Hwf | | exact Hrun].
  - eapply List.Exists_impl; [| exact Hex]. intros m Hm. right. exact Hm.
  - exfalso. apply list_elem_of_fmap in Hin as (m & -> & Hm).
    rewrite Forall_forall in Hall. destruct (Hall m Hm) as [fd Hfd].
    congruence.
Qed.

Lemma harvest_cases fields ms :
  (Forall (declared fields) ms /\
   Forall (fun m => throwsOn fields m = false) ms) \/
  Exists (fun m => ~ declared fields m \/ throwsOn fields m = true) ms.
Proof.
  induction ms as [| m ms [[Hd Hn] | Hex]].
  - left. split; constructor.
  - destruct (findField fields (attributeName m)) as [fd |] eqn:Hm.
    + destruct (throwsOn fields m) eqn:Ht.
      * right. apply Exists_cons_hd. right. exact Ht.
      * left. split; constructor; try assumption.
        unfold declared. rewrite Hm. eauto.
    + right. apply Exists_cons_hd. left. intros [fd Hfd]. congruence.
  - right. apply Exists_cons_tl. exact Hex.
Qed.

Lemma isObjectEmpty_lookup (doc : document) n v :
  doc !! n = Some v -> isObjectEmpty doc = false.
Proof.
  intros H. unfold isObjectEmpty. destruct (size doc) eqn:Hs; [| reflexivity].
  apply map_size_empty_iff in Hs. subst doc.
  rewrite lookup_empty in H. discriminate.
Qed.

Lemma held_nonempty fd doc n v vs :
  n <> "__proto__" -> is_Some (held fd doc n (v :: vs)).
Proof.
  intros Hne. unfold held. destruct (isArrayType fd); [eauto |].
  destruct (String.eqb_spec n "__proto__"); [contradiction |].
  destruct (last (v :: vs)) eqn:Hl; [eauto |].
  apply last_None in Hl. discriminate.
Qed.

(** A page with a marker that is not named [__proto__], whose harvest
    returns, yields a document that is not empty. *)
Lemma harvest_nonempty l s ms doc :
  Exists (fun m => attributeName m <> "__proto__") ms ->
  Forall (declared (fieldsAt s l)) ms ->
  Forall (fun m => throwsOn (fieldsAt s l) m = false) ms ->
  harvest l ∅ ms s = (Returned doc, s) ->
  isObjectEmpty doc = false.
Proof.
  intros Hne Hall Hno Hrun.
  destruct (harvest_returns l s ms ∅ Hall Hno (settled_empty _))
    as (doc' & Hrun' & _ & Hheld & _).
  rewrite Hrun in Hrun'. injection Hrun' as <-.
  apply Exists_exists in Hne as (m & Hin & Hm).
  rewrite Forall_forall in Hall. destruct (Hall m Hin) as [fd Hfd].
  specialize (Hheld _ _ Hfd).
  destruct (valuesOf (attributeName m) ms) as [| v vs] eqn:Hv.
  - exfalso. apply valuesOf_nil_iff in Hv. apply Hv.
    apply list_elem_of_fmap. exists m. split; [reflexivity | exact Hin].
  - destruct (held_nonempty fd ∅ (attributeName m) v vs Hm) as [w Hw].
    rewrite Hw in Hheld. eapply isObjectEmpty_lookup. exact Hheld.
Qed.

(** The submission of a document that is not empty: one request, which
    carries the completed document; its rejection is a panic. *)
Lemma indexContent_submits W html path l s doc :
  harvest l ∅ (w_select W html) s = (Returned doc, s) ->
  isObjectEmpty doc = false ->
  exists ok,
    calls (snd (indexContentInTypesense W html path l s)) =
      calls s ++ [ {| ev_call := DocumentCreate (nameAt s l) (complete path doc);
                      ev_ok := ok |} ] /\
    objects (snd (indexContentInTypesense W html path l s)) = objects s /\
    fst (indexContentInTypesense W html path l s) =
      (if ok then Returned tt else Exited).
Proof.
  intros Hrun Hne.
  unfold indexContentInTypesense, bind. rewrite Hrun, Hne.
  unfold tryCatch, bind, report, readObject, request, nameAt. simpl.
  destruct (w_documentCreate W _ _ _) as [[] | e]; simpl.
  - exists true. auto.
  - exists false. auto.
Qed.

(** ** Pages without markers *)

(** C7.  A page in which no element carries the marker attribute is
    skipped: extraction returns normally, the only effect is a warning, and
    nothing is requested of the engine, so no document is created. *)
Theorem page_without_markers_is_skipped W html path l s :
  w_select W html = [] ->
  indexContentInTypesense W html path l s =
    (Returned tt,
     {| calls := calls s;
        reports := reports s ++ [(Warn, MsgNoMarkers)];
        objects := objects s |}).
Proof.
  intros Hsel. unfold indexContentInTypesense, bind. rewrite Hsel. reflexivity.
Qed.

Lemma page_without_markers_is_skipped_witness :
  indexContentInTypesense (scripted (siteOf [plainPage])) "<p>about</p>"
    "/about/" 0 (initial docsSchema) =
    (Returned tt,
     {| calls := [];
        reports := [(Warn, MsgNoMarkers)];
        objects := {[ 0%nat := docsSchema ]} |}).
Proof.
  apply (page_without_markers_is_skipped (scripted (siteOf [plainPage]))
           "<p>about</p>" "/about/" 0 (initial docsSchema)).
  reflexivity.
Defined.

(** ** Undeclared fields *)

(** A marker that names a field the schema does not declare is fatal.  On
    a page none of whose markers names an array-typed field called like a
    member of [Object.prototype], extraction panics with the unknown-field
    message: the process exits, no request is made for the page, and
    neither the rest of the run nor a surrounding handler gets control. *)
Lemma undeclared_field_panics W html path l s :
  Exists (fun m => ~ declared (fieldsAt s l) m) (w_select W html) ->
  Forall (fun m => throwsOn (fieldsAt s l) m = false) (w_select W html) ->
  exists n,
    n ∈ map attributeName (w_select W html) /\
    findField (fieldsAt s l) n = None /\
    indexContentInTypesense W html path l s =
      (Exited,
       {| calls := calls s;
          reports := reports s ++ [(Panic, MsgUnknownField n)];
          objects := objects s |}) /\
    (forall (B : Type) (rest : unit -> M B),
       fst (bind (indexContentInTypesense W html path l) rest s) = Exited) /\
    (forall handler,
       fst (tryCatch (indexContentInTypesense W html path l) handler s) = Exited).
Proof.
  intros Hex Hno.
  destruct (harvest_panics l s _ ∅ Hex Hno (settled_empty _))
    as (n & Hrun & Hn & Hin).
  assert (Hidx : indexContentInTypesense W html path l s =
                 panic (MsgUnknownField n) s).
  { unfold indexContentInTypesense, bind. rewrite Hrun. reflexivity. }
  exists n. split; [exact Hin |]. split; [exact Hn |]. split; [exact Hidx |].
  split.
  - intros B rest. unfold bind. rewrite Hidx. reflexivity.
  - intros handler. unfold tryCatch. rewrite Hidx. reflexivity.
Qed.

Example undeclared_author_panics :
  indexContentInTypesense (scripted (siteOf [authorPage]))
    (page_html authorPage) "/post/" 0 (initial docsSchema) =
    (Exited,
     {| calls := [];
        reports := [(Panic, MsgUnknownField "author")];
        objects := {[ 0%nat := docsSchema ]} |}).
Proof. reflexivity. Qed.

(** C4.  The page that marks, before a field the schema does not declare,
    an array-typed field that the schema declares under the name
    [constructor]: the second marker names an undeclared field, and
    extraction does not panic with the unknown-field message.  Line 51 finds
    the inherited [Object.prototype.constructor] for the first marker and
    line 52 throws a TypeError: nothing is reported, nothing is requested,
    and a surrounding handler gets the TypeError. *)
Theorem undeclared_field_after_inherited_array :
  map attributeName
    (w_select (scripted (siteOf [builtPage])) (page_html builtPage)) =
    ["constructor"; "author"] /\
  findField (fieldsAt (initial objectSchema) 0) "constructor" =
    Some {| field_name := "constructor"; field_type := "string[]" |} /\
  findField (fieldsAt (initial objectSchema) 0) "author" = None /\
  indexContentInTypesense (scripted (siteOf [builtPage]))
    (page_html builtPage) "/thing/" 0 (initial objectSchema) =
    (Thrown notAFunction, initial objectSchema) /\
  reports (initial objectSchema) = [] /\
  calls (initial objectSchema) = [] /\
  (forall handler : string -> M unit,
     tryCatch (indexContentInTypesense (scripted (siteOf [builtPage]))
                 (page_html builtPage) "/thing/" 0) handler
       (initial objectSchema) =
     handler notAFunction (initial objectSchema)).
Proof.
  split; [reflexivity |]. split; [reflexivity |]. split; [reflexivity |].
  split; [reflexivity |]. split; [reflexivity |]. split; [reflexivity |].
  intros handler. reflexivity.
Qed.

(** ** The priority score *)


Lemma complete_priority path (doc : document) :
  complete path doc !! "page_priority_score" =
  Some (orElse (doc !! "page_priority_score") ten).
Proof.
  unfold complete. rewrite lookup_insert_eq.
  rewrite lookup_insert_ne by discriminate. reflexivity.
Qed.

Lemma complete_path path (doc : document) :
  complete path doc !! "page_path" = Some (VScalar (SStr path)).
Proof.
  unfold complete. rewrite lookup_insert_ne by discriminate.
  apply lookup_insert_eq.
Qed.

(** What line 67 does with the score: for a page whose harvest yields a
    document that is not empty, one document is submitted; when no
    [page_priority_score] was harvested the submitted document has the
    score 10, and when a truthy score was harvested the submitted document
    has that score. *)
Lemma priority_score_defaulted_or_truthy_kept W html path l s :
  Exists (fun m => attributeName m <> "__proto__") (w_select W html) ->
  Forall (declared (fieldsAt s l)) (w_select W html) ->
  Forall (fun m => throwsOn (fieldsAt s l) m = false) (w_select W html) ->
  exists doc ok,
    harvest l ∅ (w_select W html) s = (Returned doc, s) /\
    calls (snd (indexContentInTypesense W html path l s)) =
      calls s ++ [ {| ev_call := DocumentCreate (nameAt s l) (complete path doc);
                      ev_ok := ok |} ] /\
    (doc !! "page_priority_score" = None ->
     complete path doc !! "page_priority_score" = Some ten) /\
    (forall v, doc !! "page_priority_score" = Some v -> truthy v = true ->
               complete path doc !! "page_priority_score" = Some v).
Proof.
  intros Hne Hall Hno.
  destruct (harvest_returns l s _ ∅ Hall Hno (settled_empty _))
    as (doc & Hrun & _).
  pose proof (harvest_nonempty l s _ doc Hne Hall Hno Hrun) as Hnonempty.
  destruct (indexContent_submits W html path l s doc Hrun Hnonempty)
    as (ok & Hcalls & _).
  exists doc, ok. split; [exact Hrun |]. split; [exact Hcalls |]. split.
  - intros Hnone. rewrite complete_priority, Hnone. reflexivity.
  - intros v Hv Ht. rewrite complete_priority, Hv. simpl. rewrite Ht.
    reflexivity.
Qed.

(** C2.  The page that marks the score 0, under a schema that declares
    [page_priority_score] as [int32]: the Number 0 is harvested for the
    field, and the document submitted for the page has the score 10, not
    the score of the page.  The earlier version of the indexer, given the
    same page, submits the score the page marks. *)
Theorem zero_priority_score_is_replaced :
  w_select (scripted (siteOf [zeroScorePage])) (page_html zeroScorePage) =
    [ {| attributeName := "page_priority_score"; attributeValue := "0" |} ] /\
  (exists doc,
     harvest 0 ∅ (w_select (scripted (siteOf [zeroScorePage]))
                    (page_html zeroScorePage)) (initial docsSchema)
       = (Returned doc, initial docsSchema) /\
     doc !! "page_priority_score" = Some (VScalar (SNum (Dec false 0 0))) /\
     map ev_call
       (calls (snd (indexContentInTypesense (scripted (siteOf [zeroScorePage]))
                      (page_html zeroScorePage) "/draft/" 0 (initial docsSchema))))
       = [ DocumentCreate "docs" (complete "/draft/" doc) ] /\
     complete "/draft/" doc !! "page_priority_score" = Some ten /\
     ten <> VScalar (SNum (Dec false 0 0))) /\
  (exists doc,
     map ev_call
       (calls (snd (Earlier.indexContentInTypesense
                      (scripted (siteOf [zeroScorePage]))
                      (page_html zeroScorePage) "/draft/" "docs"
                      (initial docsSchema))))
       = [ DocumentCreate "docs" doc ] /\
     doc !! "page_priority_score" = Some (rawText "0")).
Proof.
  split; [reflexivity |]. split.
  - eexists. split; [reflexivity |].
    split; [reflexivity |].
    split; [reflexivity |].
    split; [reflexivity | discriminate].
  - eexists. split; reflexivity.
Qed.

(** ** Repeated markers *)







(** ** Synonym carryover *)

Lemma getExistingSynonyms_cases W c s :
  match w_synonymsRetrieve W (calls s) c with
  | Resolved r =>
      getExistingSynonyms W c s =
        (Returned (default [] r), record (SynonymsRetrieve c) true s)
  | Rejected e =>
      getExistingSynonyms W c s =
        (Returned [],
         {| calls := calls s ++ [ {| ev_call := SynonymsRetrieve c; ev_ok := false |} ];
            reports := reports s ++ [(ConsoleWarn, MsgFailedToRetrieveSynonyms c e)];
            objects := objects s |})
  end.
Proof.
  unfold getExistingSynonyms, tryCatch, bind, request.
  destruct (w_synonymsRetrieve W (calls s) c); reflexivity.
Qed.

Lemma upsertSynonyms_all W c ys : forall s,
  exists evs rs,
    upsertSynonyms W c ys s =
      (Returned tt,
       {| calls := calls s ++ evs; reports := reports s ++ rs;
          objects := objects s |}) /\
    map ev_call evs = map (upsertOf c) ys /\
    Forall (fun r => fst r = ConsoleWarn) rs /\
    length rs = length (filter (fun e => rejected e = true) evs).
Proof.
  induction ys as [| y ys IH]; intros s.
  - exists [], []. simpl. rewrite !app_nil_r. destruct s. repeat split; constructor.
  - simpl. unfold bind at 1. unfold tryCatch, request.
    destruct (w_synonymUpsert W (calls s) c (synonym_id y) (synonym_synonyms y))
      as [[] | e].
    + destruct (IH (record (upsertOf c y) true s)) as (evs & rs & Hrun & Hc & Hw & Hl).
      exists ({| ev_call := upsertOf c y; ev_ok := true |} :: evs), rs.
      split; [| split; [| split]].
      * unfold upsertOf in *. rewrite Hrun. simpl. rewrite <- app_assoc. reflexivity.
      * simpl. rewrite Hc. reflexivity.
      * exact Hw.
      * rewrite filter_cons. simpl. exact Hl.
    + unfold report. simpl.
      match goal with |- context [upsertSynonyms W c ys ?st] =>
        destruct (IH st) as (evs & rs & Hrun & Hc & Hw & Hl) end.
      exists ({| ev_call := upsertOf c y; ev_ok := false |} :: evs),
             ((ConsoleWarn, MsgFailedToUpsertSynonym (synonym_id y) e) :: rs).
      split; [| split; [| split]].
      * rewrite Hrun. simpl. rewrite <- !app_assoc. reflexivity.
      * simpl. rewrite Hc. reflexivity.
      * constructor; [reflexivity | exact Hw].
      * rewrite filter_cons. simpl. rewrite Hl. reflexivity.
Qed.

(** C8.  Synonym carryover is best effort.  Fetching the synonyms of a
    collection always returns: the rules of the reply, no rule when the
    reply has none, and no rule, with a warning, when the retrieval is
    rejected (as it is for a collection that does not exist).  Replaying
    rules always returns, after one upsert request per rule in the order
    of the rules, whichever of them are rejected; each rejection adds one
    warning and nothing else. *)
Theorem synonym_carryover_is_best_effort W c :
  (forall s,
     exists ok rs,
       getExistingSynonyms W c s =
         (Returned (match w_synonymsRetrieve W (calls s) c with
                    | Resolved r => default [] r
                    | Rejected _ => []
                    end),
          {| calls := calls s ++ [ {| ev_call := SynonymsRetrieve c; ev_ok := ok |} ];
             reports := reports s ++ rs;
             objects := objects s |}) /\
       ok = (match w_synonymsRetrieve W (calls s) c with
             | Resolved _ => true
             | Rejected _ => false
             end) /\
       length rs = (if ok then 0 else 1)%nat /\
       Forall (fun r => fst r = ConsoleWarn) rs) /\
  (forall ys s,
     exists evs rs,
       upsertSynonyms W c ys s =
         (Returned tt,
          {| calls := calls s ++ evs; reports := reports s ++ rs;
             objects := objects s |}) /\
       map ev_call evs = map (upsertOf c) ys /\
       Forall (fun r => fst r = ConsoleWarn) rs /\
       length rs = length (filter (fun e => rejected e = true) evs)).
Proof.
  split.
  - intros s. pose proof (getExistingSynonyms_cases W c s) as H.
    destruct (w_synonymsRetrieve W (calls s) c) as [r | e].
    + exists true, []. rewrite H. unfold record. rewrite app_nil_r.
      repeat split. constructor.
    + exists false, [(ConsoleWarn, MsgFailedToRetrieveSynonyms c e)].
      rewrite H. repeat split. constructor; [reflexivity | constructor].
  - intros ys s. apply upsertSynonyms_all.
Qed.

Example upsert_continues_after_rejection :
  let W := scripted
             {| sc_pages := []; sc_alias := None; sc_synonyms := [];
                sc_rejects := fun c =>
                  match c with
                  | SynonymUpsert _ id _ => String.eqb id "b"
                  | _ => false
                  end |} in
  let rules := [ {| synonym_id := "a"; synonym_synonyms := ["x"; "y"] |};
                 {| synonym_id := "b"; synonym_synonyms := ["u"; "v"] |};
                 {| synonym_id := "c"; synonym_synonyms := ["p"; "q"] |} ] in
  let r := upsertSynonyms W "docs_2" rules (initial docsSchema) in
  fst r = Returned tt /\
  map (fun e => (ev_call e, ev_ok e)) (calls (snd r)) =
    [ (SynonymUpsert "docs_2" "a" ["x"; "y"], true);
      (SynonymUpsert "docs_2" "b" ["u"; "v"], false);
      (SynonymUpsert "docs_2" "c" ["p"; "q"], true) ] /\
  reports (snd r) = [(ConsoleWarn, MsgFailedToUpsertSynonym "b" "request failed")].
Proof. repeat split. Qed.

(** ** The phases of a run

    Each phase leaves the schema objects alone and appends its requests to
    the history. *)

Lemma bind_unfold {A B} (m : M A) (k : A -> M B) (s : State) :
  bind m k s =
  match m s with
  | (Returned a, s') => k a s'
  | (Thrown e, s') => (Thrown e, s')
  | (Exited, s') => (Exited, s')
  end.
Proof. reflexivity. Qed.

Lemma harvestOne_frame l doc m s o s' :
  harvestOne l doc m s = (o, s') ->
  calls s' = calls s /\ objects s' = objects s.
Proof.
  unfold harvestOne, bind, readObject, panic, throw, ret.
  destruct (findField _ (attributeName m)) as [fd |].
  - destruct (isArrayType fd);
      [destruct (getProperty _ _); try destruct (orElse _ _) |];
      intros [= <- <-]; split; reflexivity.
  - intros [= <- <-]. split; reflexivity.
Qed.

Lemma harvest_frame l ms : forall doc s o s',
  harvest l doc ms s = (o, s') ->
  calls s' = calls s /\ objects s' = objects s.
Proof.
  induction ms as [| m ms IH]; intros doc s o s' H; simpl in H.
  - injection H as <- <-. split; reflexivity.
  - rewrite bind_unfold in H.
    destruct (harvestOne l doc m s) as [[d | e |] s1] eqn:H1;
      apply harvestOne_frame in H1 as [Hc Ho].
    + apply IH in H as [-> ->]. split; assumption.
    + injection H as <- <-. split; assumption.
    + injection H as <- <-. split; assumption.
Qed.

Lemma indexContent_trace W html path l s o s' :
  indexContentInTypesense W html path l s = (o, s') ->
  exists evs,
    calls s' = calls s ++ evs /\ objects s' = objects s /\
    Forall (fun e => populates e = true) evs.
Proof.
  unfold indexContentInTypesense. rewrite bind_unfold.
  destruct (harvest l ∅ (w_select W html) s) as [[doc | e |] s1] eqn:H1;
    apply harvest_frame in H1 as [Hc Ho].
  - destruct (isObjectEmpty doc).
    + intros [= <- <-]. exists []. rewrite app_nil_r. simpl. auto.
    + unfold tryCatch, bind, report, readObject, request, panic. simpl.
      destruct (w_documentCreate W _ _ _) as [[] | e]; simpl;
        intros [= <- <-]; simpl; eexists [_]; rewrite Hc;
        (split; [reflexivity |]); (split; [exact Ho |]); repeat constructor.
  - intros [= <- <-]. exists []. rewrite app_nil_r. auto.
  - intros [= <- <-]. exists []. rewrite app_nil_r. auto.
Qed.

Lemma indexFiles_trace W root l files : forall s o s',
  indexFiles W root l files s = (o, s') ->
  exists evs,
    calls s' = calls s ++ evs /\ objects s' = objects s /\
    Forall (fun e => populates e = true) evs.
Proof.
  induction files as [| file files IH]; intros s o s' H; simpl in H.
  - injection H as <- <-. exists []. rewrite app_nil_r. auto.
  - rewrite bind_unfold in H. unfold report in H. rewrite bind_unfold in H.
    unfold request in H. simpl in H.
    destruct (w_readFile W (calls s) file) as [html | e].
    + rewrite bind_unfold in H.
      match type of H with context [indexContentInTypesense W html ?p l ?st] =>
        destruct (indexContentInTypesense W html p l st) as [[[] | e |] s1] eqn:H1;
        apply indexContent_trace in H1 as (evs1 & Hc1 & Ho1 & Hf1)
      end; simpl in *.
      * apply IH in H as (evs2 & Hc2 & Ho2 & Hf2).
        exists (ev (ReadFile file) true :: evs1 ++ evs2).
        rewrite Hc2, Hc1, Ho2, Ho1. rewrite <- !app_assoc. simpl.
        split; [reflexivity |]. split; [reflexivity |].
        constructor; [reflexivity |]. apply Forall_app; auto.
      * injection H as <- <-.
        exists (ev (ReadFile file) true :: evs1).
        rewrite Hc1, Ho1. rewrite <- !app_assoc. simpl.
        split; [reflexivity |]. split; [reflexivity |].
        constructor; [reflexivity | exact Hf1].
      * injection H as <- <-.
        exists (ev (ReadFile file) true :: evs1).
        rewrite Hc1, Ho1. rewrite <- !app_assoc. simpl.
        split; [reflexivity |]. split; [reflexivity |].
        constructor; [reflexivity | exact Hf1].
    + injection H as <- <-. exists [ev (ReadFile file) false].
      repeat split. repeat constructor.
Qed.

Lemma discoverOld_trace W a s :
  exists old ys okA s',
    discoverOld W a s = (Returned (old, ys), s') /\
    objects s' = objects s /\
    ((okA = false /\ old = None /\ ys = [] /\
      calls s' = calls s ++ [ev (AliasRetrieve a) false]) \/
     (okA = true /\ nameGiven old = None /\ ys = [] /\
      calls s' = calls s ++ [ev (AliasRetrieve a) true]) \/
     (okA = true /\ exists o okS,
        nameGiven old = Some o /\
        calls s' = calls s ++ [ev (AliasRetrieve a) true;
                               ev (SynonymsRetrieve o) okS])).
Proof.
  unfold discoverOld, tryCatch. rewrite bind_unfold. unfold request at 1.
  destruct (w_aliasRetrieve W (calls s) a) as [old | e].
  - rewrite bind_unfold. unfold report at 1.
    destruct (nameGiven old) as [o |] eqn:Hold.
    + rewrite bind_unfold. unfold report at 1. rewrite bind_unfold.
      match goal with |- context [getExistingSynonyms W o ?st] =>
        pose proof (getExistingSynonyms_cases W o st) as Hsyn;
        destruct (w_synonymsRetrieve W (calls st) o) as [r | e']
      end; rewrite Hsyn; rewrite bind_unfold; unfold report at 1, ret;
        simpl.
      * eexists old, _, true, _. split; [reflexivity |]. split; [reflexivity |].
        right; right. split; [reflexivity |]. exists o, true.
        split; [exact Hold |]. simpl. rewrite <- app_assoc. reflexivity.
      * eexists old, _, true, _. split; [reflexivity |]. split; [reflexivity |].
        right; right. split; [reflexivity |]. exists o, false.
        split; [exact Hold |]. simpl. rewrite <- app_assoc. reflexivity.
    + unfold ret. eexists old, _, true, _.
      split; [reflexivity |]. split; [reflexivity |].
      right; left. auto.
  - rewrite bind_unfold. unfold report at 1, ret.
    eexists None, _, false, _. split; [reflexivity |]. split; [reflexivity |].
    left. auto.
Qed.

Lemma createNew_trace W n l s :
  exists (ok : bool) s',
    createNew W n l s = ((if ok then Returned tt else Exited), s') /\
    objects s' = objects s /\
    calls s' =
      calls s ++ [ev (CollectionCreate (default emptySchema (objects s !! l))) ok].
Proof.
  unfold createNew, tryCatch, bind, report, readObject, request, panic. simpl.
  destruct (w_collectionCreate W _ _) as [[] | e].
  - eexists true, _. repeat split.
  - eexists false, _. repeat split.
Qed.

Lemma carrySynonyms_trace W n ys s :
  exists evs s',
    carrySynonyms W n ys s = (Returned tt, s') /\
    objects s' = objects s /\
    calls s' = calls s ++ evs /\
    map ev_call evs = map (upsertOf n) ys.
Proof.
  unfold carrySynonyms. destruct ys as [| y ys].
  - eexists [], _. unfold report. split; [reflexivity |].
    simpl. rewrite app_nil_r. auto.
  - change (0 <? length (y :: ys))%nat with true. cbv iota.
    rewrite bind_unfold. unfold report at 1. unfold tryCatch.
    rewrite bind_unfold.
    match goal with |- context [upsertSynonyms W n (y :: ys) ?st] =>
      destruct (upsertSynonyms_all W n (y :: ys) st) as (evs & rs & Hrun & Hc & _)
    end.
    rewrite Hrun. unfold report. simpl.
    eexists evs, _. split; [reflexivity |]. simpl. auto.
Qed.

Lemma swapAlias_trace W a n s :
  exists ok s',
    swapAlias W a n s = (Returned tt, s') /\
    objects s' = objects s /\
    calls s' = calls s ++ [ev (AliasUpsert a n) ok] /\
    (ok = false ->
     exists e, last (reports s') = Some (Error, MsgCouldNotUpsertAlias a n e)).
Proof.
  unfold swapAlias, tryCatch, bind, report, request. simpl.
  destruct (w_aliasUpsert W _ _ _) as [[] | e]; simpl.
  - eexists true, _. repeat split. discriminate.
  - eexists false, _. repeat split. intros _. exists e. apply last_snoc.
Qed.

Lemma deleteOld_trace W old s :
  exists s',
    deleteOld W old s = (Returned tt, s') /\
    objects s' = objects s /\
    match nameGiven old with
    | Some o => exists ok, calls s' = calls s ++ [ev (CollectionDelete o) ok]
    | None => calls s' = calls s
    end.
Proof.
  unfold deleteOld. destruct (nameGiven old) as [o |].
  - unfold tryCatch, bind, report, request. simpl.
    destruct (w_collectionDelete W _ _) as [[] | e]; simpl;
      eexists; (split; [reflexivity |]); (split; [reflexivity |]);
      [exists true | exists false]; reflexivity.
  - eexists. unfold ret. repeat split.
Qed.

(** ** The shape of a run *)

Lemma fresh_after_caller (cs : CollectionSchema) :
  fresh (dom ({[ 0%nat := cs ]} : gmap nat CollectionSchema)) <> 0%nat.
Proof.
  intros H.
  pose proof (is_fresh (dom ({[ 0%nat := cs ]} : gmap nat CollectionSchema))) as Hf.
  rewrite H in Hf. apply Hf. rewrite dom_singleton_L. set_solver.
Qed.

Lemma upserts_only n ys : forall evs,
  map ev_call evs = map (upsertOf n) ys ->
  Forall (fun e => isSynonymUpsert (ev_call e) = true) evs.
Proof.
  induction ys as [| y ys IH]; intros [| e evs] H; try discriminate;
    constructor.
  - injection H as He _. rewrite He. reflexivity.
  - injection H as _ Ht. apply IH. exact Ht.
Qed.

Lemma run_shape W gen cs publicDir rootDir o s' :
  run W gen cs publicDir rootDir = (o, s') ->
  RunShape (default publicDir (nameGiven rootDir)) (schema_name cs) (gen cs)
    (withName cs (gen cs)) o (calls s') /\
  objects s' !! 0%nat = Some cs.
Proof.
  unfold run, onPostBuild.
  set (root := default publicDir (nameGiven rootDir)).
  intros H.
  rewrite bind_unfold in H. unfold report at 1 in H.
  rewrite bind_unfold in H. unfold request at 1 in H.
  cbn [calls reports objects initial] in H.
  destruct (w_listHtmlFiles W [] root) as [files | e].
  2:{ injection H as <- <-. cbn. split; [constructor | apply lookup_singleton_eq]. }
  rewrite bind_unfold in H. unfold readObject at 1 in H.
  cbn [calls reports objects record] in H.
  rewrite lookup_singleton_eq in H. cbn [default option_rect] in H.
  rewrite bind_unfold in H. unfold spread at 1 in H.
  cbn [calls reports objects record] in H.
  rewrite lookup_singleton_eq in H.
  pose proof (fresh_after_caller cs) as Hfresh.
  set (l := fresh (dom ({[ 0%nat := cs ]} : gmap nat CollectionSchema))) in *.
  rewrite bind_unfold in H. unfold assignName at 1 in H.
  cbn [calls reports objects record default] in H.
  rewrite bind_unfold in H. unfold report at 1 in H.
  cbn [calls reports objects record default] in H.
  change (id cs) with cs in H.
  match type of H with context [bind (readObject 0) _ ?st] => set (s1 := st) in H end.
  assert (Hc1 : calls s1 = [ev (ListHtmlFiles root) true]) by reflexivity.
  assert (Ho0 : objects s1 !! 0%nat = Some cs).
  { subst s1. cbn [objects]. rewrite lookup_alter_ne by exact Hfresh.
    rewrite lookup_insert_ne by exact Hfresh. apply lookup_singleton_eq. }
  assert (Hol : objects s1 !! l = Some (withName cs (gen cs))).
  { subst s1. cbn [objects]. rewrite lookup_alter_eq, lookup_insert_eq.
    reflexivity. }
  clearbody s1.
  rewrite bind_unfold in H. unfold readObject at 1 in H.
  rewrite Ho0 in H. cbn [default] in H. change (id cs) with cs in H.
  rewrite bind_unfold in H.
  destruct (discoverOld_trace W (schema_name cs) s1)
    as (old & ys & okA & s2 & Hd & Hobj2 & Hcases).
  rewrite Hd in H. cbv iota beta in H.
  assert (Hdisc : Discovery root (schema_name cs) old (calls s2)).
  { destruct Hcases as [(_ & -> & _ & Hc) | [(_ & Hn & _ & Hc) | (_ & o' & okS & Hn & Hc)]];
      rewrite Hc, Hc1; simpl.
    - constructor.
    - constructor; exact Hn.
    - econstructor; exact Hn. }
  clear Hcases Hd.
  rewrite bind_unfold in H.
  destruct (createNew_trace W (gen cs) l s2) as (okC & s3 & Hcr & Hobj3 & Hc3).
  rewrite Hcr in H. rewrite Hobj2, Hol in Hc3. cbn [default] in Hc3.
  change (id ?x) with x in Hc3.
  destruct okC.
  2:{ injection H as <- <-. split.
      - rewrite Hc3. econstructor. exact Hdisc.
      - rewrite Hobj3, Hobj2. exact Ho0. }
  rewrite bind_unfold in H.
  destruct (indexFiles W root l files s3) as [oi s4] eqn:Hidx.
  apply indexFiles_trace in Hidx as (idx & Hc4 & Hobj4 & Hpop).
  assert (Hobj04 : objects s4 !! 0%nat = Some cs).
  { rewrite Hobj4, Hobj3, Hobj2. exact Ho0. }
  assert (Hcalls4 : calls s4 =
            calls s2 ++ ev (CollectionCreate (withName cs (gen cs))) true :: idx).
  { rewrite Hc4, Hc3, <- app_assoc. reflexivity. }
  destruct oi as [[] | e |].
  2:{ injection H as <- <-. split; [| exact Hobj04].
      rewrite Hcalls4. econstructor; [exact Hdisc | exact Hpop | discriminate]. }
  2:{ injection H as <- <-. split; [| exact Hobj04].
      rewrite Hcalls4. econstructor; [exact Hdisc | exact Hpop | discriminate]. }
  rewrite bind_unfold in H.
  destruct (carrySynonyms_trace W (gen cs) ys s4)
    as (syn & s5 & Hcs & Hobj5 & Hc5 & Hmap).
  rewrite Hcs in H.
  rewrite bind_unfold in H. unfold readObject at 1 in H.
  rewrite Hobj5, Hobj04 in H. cbn [default] in H. change (id cs) with cs in H.
  rewrite bind_unfold in H.
  destruct (swapAlias_trace W (schema_name cs) (gen cs) s5)
    as (okS & s6 & Hsw & Hobj6 & Hc6 & _).
  rewrite Hsw in H.
  rewrite bind_unfold in H.
  destruct (deleteOld_trace W old s6) as (s7 & Hdel & Hobj7 & Hc7).
  rewrite Hdel in H.
  rewrite bind_unfold in H. unfold readObject at 1, report in H.
  injection H as <- <-. cbn [calls objects].
  split; [| rewrite Hobj7, Hobj6, Hobj5; exact Hobj04].
  destruct (nameGiven old) as [o' |] eqn:Hold.
  - destruct Hc7 as [okD Hc7]. rewrite Hc7, Hc6, Hc5, Hcalls4.
    repeat (rewrite <- app_assoc; cbn [app]).
    econstructor; [exact Hdisc | exact Hpop | eapply upserts_only; exact Hmap |].
    econstructor. exact Hold.
  - rewrite Hc7, Hc6, Hc5, Hcalls4.
    repeat (rewrite <- app_assoc; cbn [app]).
    econstructor; [exact Hdisc | exact Hpop | eapply upserts_only; exact Hmap |].
    constructor. exact Hold.
Qed.

(** ** Consequences for the requests of a run *)

Lemma Forall_kind (P Q : Event -> bool) (l : History) :
  (forall e, P e = true -> Q e = false) ->
  Forall (fun e => P e = true) l -> Forall (fun e => Q e = false) l.
Proof. intros HPQ. apply List.Forall_impl. exact HPQ. Qed.

Lemma Discovery_readsOnly root alias old found :
  Discovery root alias old found -> Forall (fun e => readsOnly e = true) found.
Proof. destruct 1; repeat constructor. Qed.



Lemma readsOnly_not_creates e : readsOnly e = true -> creates e = false.
Proof. unfold readsOnly, creates. destruct (ev_call e); simpl; congruence. Qed.


Lemma populates_not_creates e : populates e = true -> creates e = false.
Proof. unfold populates, creates. destruct (ev_call e); simpl; congruence. Qed.


Lemma upserts_not_creates e :
  isSynonymUpsert (ev_call e) = true -> creates e = false.
Proof. unfold creates. destruct (ev_call e); simpl; congruence. Qed.

Lemma Deletion_not_creates old del :
  Deletion old del -> Forall (fun e => creates e = false) del.
Proof. destruct 1; repeat constructor. Qed.

(** If an event of some kind splits a history that starts with events not
    of that kind, these all come before it. *)
Lemma split_after_prefix (P : Event -> bool) (l1 : History) :
  forall l2 before e after,
    l1 ++ l2 = before ++ e :: after ->
    Forall (fun x => P x = false) l1 ->
    P e = true ->
    exists b, before = l1 ++ b.
Proof.
  induction l1 as [| x l1 IH]; intros l2 before e after Heq Hall He.
  - exists before. reflexivity.
  - inversion Hall as [| ? ? Hx Hrest]; subst.
    destruct before as [| y before]; simpl in Heq.
    + injection Heq as -> _. congruence.
    + injection Heq as -> Heq.
      destruct (IH _ _ _ _ Heq Hrest He) as [b ->].
      exists b. reflexivity.
Qed.

Lemma Forall_In_false (P : Event -> bool) (l : History) e :
  Forall (fun x => P x = false) l -> In e l -> P e = true -> False.
Proof.
  intros Hall Hin He. rewrite Forall_forall in Hall.
  apply list_elem_of_In in Hin. specialize (Hall e Hin). congruence.
Qed.

(** C3.  When the request that creates the new collection is rejected, the
    run ends in a panic with that request as its last: every request
    before it only reads (the file listing, the alias lookup, the synonym
    retrieval), so no document is created, the alias is not upserted, no
    synonym is upserted and no collection is deleted. *)
Theorem rejected_create_aborts_run W gen cs publicDir rootDir o s' sch :
  run W gen cs publicDir rootDir = (o, s') ->
  In (ev (CollectionCreate sch) false) (calls s') ->
  o = Exited /\
  exists found,
    calls s' = found ++ [ev (CollectionCreate sch) false] /\
    Forall (fun e => mutates (ev_call e) = false) found /\
    Forall (fun e => isDocumentCreate (ev_call e) = false /\
                     isSynonymUpsert (ev_call e) = false /\
                     isAliasUpsert (ev_call e) = false /\
                     isCollectionDelete (ev_call e) = false) (calls s').
Proof.
  intros Hrun Hin.
  destruct (run_shape _ _ _ _ _ _ _ Hrun) as [Hshape _].
  set (failed := fun e : Event => creates e && negb (ev_ok e)).
  assert (Hfailed : failed (ev (CollectionCreate sch) false) = true) by reflexivity.
  assert (Hro : forall e, readsOnly e = true -> failed e = false).
  { intros e He. unfold failed. rewrite (readsOnly_not_creates e He). reflexivity. }
  assert (Hpo : forall e, populates e = true -> failed e = false).
  { intros e He. unfold failed. rewrite (populates_not_creates e He). reflexivity. }
  assert (Hup : forall e, isSynonymUpsert (ev_call e) = true -> failed e = false).
  { intros e He. unfold failed. rewrite (upserts_not_creates e He). reflexivity. }
  inversion Hshape as [e He Hc | old found Hd He Hc
                       | old found idx o' Hd Hp Hne He Hc
                       | old found idx syn okA del Hd Hp Hs Hdel He Hc]; subst.
  - exfalso. rewrite <- Hc in Hin. destruct Hin as [Hin | []]. discriminate.
  - split; [reflexivity |].
    pose proof (Discovery_readsOnly _ _ _ _ Hd) as Hread.
    rewrite <- Hc in Hin. apply in_app_or in Hin as [Hin | [Hin | []]].
    + exfalso. eapply (Forall_In_false failed); [| exact Hin | exact Hfailed].
      eapply Forall_kind; [exact Hro | exact Hread].
    + injection Hin as <-. exists found. split; [reflexivity |]. split.
      * eapply List.Forall_impl; [| exact Hread]. intros e He. simpl in He.
        unfold readsOnly in He. destruct (mutates (ev_call e)); [discriminate | reflexivity].
      * apply Forall_app. split.
        -- eapply List.Forall_impl; [| exact Hread]. intros e He. simpl in He.
           unfold readsOnly in He. destruct (ev_call e); simpl in *;
             try discriminate; auto.
        -- repeat constructor.
  - exfalso. rewrite <- Hc in Hin.
    eapply (Forall_In_false failed); [| exact Hin | exact Hfailed].
    apply Forall_app. split.
    + eapply Forall_kind; [exact Hro |]. eapply Discovery_readsOnly; exact Hd.
    + constructor; [reflexivity |]. eapply Forall_kind; [exact Hpo | exact Hp].
  - exfalso. rewrite <- Hc in Hin.
    eapply (Forall_In_false failed); [| exact Hin | exact Hfailed].
    apply Forall_app. split.
    + eapply Forall_kind; [exact Hro |]. eapply Discovery_readsOnly; exact Hd.
    + constructor; [reflexivity |]. apply Forall_app. split.
      * eapply Forall_kind; [exact Hpo | exact Hp].
      * apply Forall_app. split.
        -- eapply Forall_kind; [exact Hup | exact Hs].
        -- constructor; [reflexivity |].
           eapply List.Forall_impl; [| eapply Deletion_not_creates; exact Hdel].
           intros e He. simpl in He. unfold failed. rewrite He. reflexivity.
Qed.

Lemma rejected_create_aborts_run_witness :
  fst (run (scripted (liveSite isCollectionCreate)) nextName docsSchema
         "/public" None) = Exited /\
  exists found,
    calls (snd (run (scripted (liveSite isCollectionCreate)) nextName docsSchema
                  "/public" None)) =
      found ++ [ev (CollectionCreate (withName docsSchema "docs_2")) false] /\
    Forall (fun e => mutates (ev_call e) = false) found /\
    Forall (fun e => isDocumentCreate (ev_call e) = false /\
                     isSynonymUpsert (ev_call e) = false /\
                     isAliasUpsert (ev_call e) = false /\
                     isCollectionDelete (ev_call e) = false)
      (calls (snd (run (scripted (liveSite isCollectionCreate)) nextName
                     docsSchema "/public" None))).
Proof.
  apply (rejected_create_aborts_run (scripted (liveSite isCollectionCreate))
           nextName docsSchema "/public" None _ _
           (withName docsSchema "docs_2")).
  - apply surjective_pairing.
  - vm_compute. right; right; right; left. reflexivity.
Defined.

(** ** The old generation *)




(** ** The schema of the new generation *)

Lemma in_middle (P : Event -> bool) (l1 l2 : History) c e :
  In e (l1 ++ c :: l2) ->
  Forall (fun x => P x = false) l1 ->
  Forall (fun x => P x = false) l2 ->
  P e = true ->
  e = c.
Proof.
  intros Hin H1 H2 He. apply in_app_or in Hin as [Hin | [Hin | Hin]].
  - exfalso. exact (Forall_In_false P l1 e H1 Hin He).
  - congruence.
  - exfalso. exact (Forall_In_false P l2 e H2 Hin He).
Qed.

(** C10.  The schema a run sends when it creates the new collection is the
    caller's schema with the generated name for [name]: the same fields and
    the same other properties.  Once the files are listed the run does send
    it, and at the end of the run the caller's object is as it was, with its
    own name. *)
Theorem new_schema_is_base_renamed W gen cs publicDir rootDir o s' :
  run W gen cs publicDir rootDir = (o, s') ->
  (forall sch ok,
     In (ev (CollectionCreate sch) ok) (calls s') ->
     sch = withName cs (gen cs) /\
     schema_name sch = gen cs /\
     schema_fields sch = schema_fields cs /\
     schema_rest sch = schema_rest cs) /\
  (In (ev (ListHtmlFiles (default publicDir (nameGiven rootDir))) true) (calls s') ->
   exists ok, In (ev (CollectionCreate (withName cs (gen cs))) ok) (calls s')) /\
  objects s' !! 0%nat = Some cs.
Proof.
  intros Hrun.
  destruct (run_shape _ _ _ _ _ _ _ Hrun) as [Hshape Hobj].
  assert (Hro : forall found old root alias,
            Discovery root alias old found ->
            Forall (fun x => creates x = false) found).
  { intros found old root alias Hd.
    eapply Forall_kind; [exact readsOnly_not_creates |].
    eapply Discovery_readsOnly; exact Hd. }
  assert (Hsent : forall sch ok l1 l2 okC,
            calls s' = l1 ++ ev (CollectionCreate (withName cs (gen cs))) okC :: l2 ->
            Forall (fun x => creates x = false) l1 ->
            Forall (fun x => creates x = false) l2 ->
            In (ev (CollectionCreate sch) ok) (calls s') ->
            sch = withName cs (gen cs)).
  { intros sch ok l1 l2 okC Hc H1 H2 Hin. rewrite Hc in Hin.
    pose proof (in_middle creates _ _ _ _ Hin H1 H2 eq_refl) as Heq.
    injection Heq as -> _. reflexivity. }
  assert (Hfields : forall sch, sch = withName cs (gen cs) ->
            sch = withName cs (gen cs) /\ schema_name sch = gen cs /\
            schema_fields sch = schema_fields cs /\
            schema_rest sch = schema_rest cs).
  { intros sch ->. repeat split. }
  split; [| split; [| exact Hobj]].
  - intros sch ok Hin. apply Hfields.
    inversion Hshape as [e He Hc | old found Hd He Hc
                         | old found idx o' Hd Hp Hne He Hc
                         | old found idx syn okA del Hd Hp Hs Hdel He Hc]; subst.
    + rewrite <- Hc in Hin. destruct Hin as [Hin | []]. discriminate.
    + eapply (Hsent sch ok found []); eauto.
    + eapply (Hsent sch ok found idx); eauto.
      eapply Forall_kind; [exact populates_not_creates | exact Hp].
    + eapply (Hsent sch ok found (idx ++ syn ++ _ :: del)); eauto.
      apply Forall_app. split.
      * eapply Forall_kind; [exact populates_not_creates | exact Hp].
      * apply Forall_app. split.
        -- eapply Forall_kind; [exact upserts_not_creates | exact Hs].
        -- constructor; [reflexivity |]. eapply Deletion_not_creates; exact Hdel.
  - intros Hlisted.
    inversion Hshape as [e He Hc | old found Hd He Hc
                         | old found idx o' Hd Hp Hne He Hc
                         | old found idx syn okA del Hd Hp Hs Hdel He Hc]; subst.
    + rewrite <- Hc in Hlisted. destruct Hlisted as [Hl | []]. discriminate.
    + exists false. apply in_or_app. right. left. reflexivity.
    + exists true. apply in_or_app. right. left. reflexivity.
    + exists true. apply in_or_app. right. left. reflexivity.
Qed.

Lemma new_schema_is_base_renamed_witness :
  let r := run (scripted (liveSite (fun _ => false))) nextName docsSchema
             "/public" None in
  (forall sch ok,
     In (ev (CollectionCreate sch) ok) (calls (snd r)) ->
     sch = withName docsSchema "docs_2" /\
     schema_name sch = "docs_2" /\
     schema_fields sch = schema_fields docsSchema /\
     schema_rest sch = schema_rest docsSchema) /\
  (exists ok, In (ev (CollectionCreate (withName docsSchema "docs_2")) ok)
                (calls (snd r))) /\
  objects (snd r) !! 0%nat = Some docsSchema.
Proof.
  intros r.
  destruct (new_schema_is_base_renamed (scripted (liveSite (fun _ => false)))
              nextName docsSchema "/public" None (fst r) (snd r)
              (surjective_pairing r)) as (Hsent & Hdoes & Hobj).
  split; [exact Hsent |]. split; [| exact Hobj].
  apply Hdoes. vm_compute. left. reflexivity.
Defined.

(** * Further properties *)

Lemma parseDigits_decimal c r acc k :
  digitValue c = Some k -> (k <? 10)%N = true ->
  parseDigits 10 (String c r) acc =
  parseDigits 10 r (Some (default 0%N acc * 10 + k)%N).
Proof. intros Hc Hk. simpl. rewrite Hc, Hk. reflexivity. Qed.

Lemma append_cons c (s t : string) : (String c s ++ t)%string = String c (s ++ t)%string.
Proof. reflexivity. Qed.

Lemma parseDigits_numeral d : forall a tail,
  match tail with
  | String c _ => digitValue c = None
  | EmptyString => True
  end ->
  parseDigits 10 (DecimalString.NilEmpty.string_of_uint d ++ tail)%string (Some a) =
  Some (DecimalPos.Unsigned.of_lu (Decimal.rev d)
        + a * 10 ^ DecimalPos.Unsigned.usize d)%N.
Proof.
  induction d; intros a tail Ht.
  { simpl. destruct tail as [| c r]; simpl.
    - f_equal. lia.
    - rewrite Ht. f_equal. lia. }
  all: simpl DecimalString.NilEmpty.string_of_uint; rewrite append_cons;
    erewrite parseDigits_decimal by reflexivity;
    rewrite IHd by exact Ht;
    match goal with |- context [(N_of_ascii ?c - 48)%N] =>
      let v := eval vm_compute in (N_of_ascii c - 48)%N in
      change (N_of_ascii c - 48)%N with v
    end;
    match goal with |- context [Decimal.rev (?f ?x)] =>
      change (Decimal.rev (f x)) with (Decimal.revapp x (f Decimal.Nil));
      rewrite (DecimalPos.Unsigned.of_lu_revapp x (f Decimal.Nil))
    end;
    simpl DecimalPos.Unsigned.of_lu;
    simpl DecimalPos.Unsigned.usize; rewrite N.pow_succ_r'; f_equal;
    simpl default; lia.
Qed.

Lemma numeral_value n : forall tail,
  match tail with
  | String c _ => digitValue c = None
  | EmptyString => True
  end ->
  parseDigits 10 (numeral n ++ tail)%string None = Some n.
Proof.
  intros tail Ht. unfold numeral.
  assert (Hn : N.of_uint (N.to_uint n) = n) by apply DecimalN.Unsigned.of_to.
  unfold N.of_uint in Hn. rewrite DecimalPos.Unsigned.of_uint_alt in Hn.
  pose proof (parseDigits_numeral (N.to_uint n) 0 tail Ht) as H.
  rewrite N.mul_0_l, N.add_0_r, Hn in H.
  destruct (N.to_uint n) eqn:Hd.
  { exfalso. destruct n; simpl in Hd; [discriminate |].
    revert Hd. apply DecimalPos.Unsigned.to_uint_nonnil. }
  all: simpl DecimalString.NilEmpty.string_of_uint in *; rewrite append_cons in *;
    erewrite parseDigits_decimal in H by reflexivity;
    erewrite parseDigits_decimal by reflexivity; exact H.
Qed.

Lemma trimStart_app ws r : blank ws -> trimStart (ws ++ r)%string = trimStart r.
Proof.
  unfold blank. induction ws as [| c ws IH]; intros H; [reflexivity |].
  simpl in *. destruct (isWhiteSpace c); [auto | discriminate].
Qed.

Lemma startsWith_cons a p b s :
  startsWith (String a p) (String b s) = Ascii.eqb a b && startsWith p s.
Proof. reflexivity. Qed.

Lemma numeral_head n tail :
  endsNumeral tail ->
  trimStart (numeral n ++ tail)%string = (numeral n ++ tail)%string /\
  readSign (numeral n ++ tail)%string = (false, (numeral n ++ tail)%string) /\
  startsWith "0x" (numeral n ++ tail)%string = false /\
  startsWith "0X" (numeral n ++ tail)%string = false.
Proof.
  intros Ht. unfold numeral.
  destruct (N.to_uint n) as [| u | u | u | u | u | u | u | u | u | u] eqn:Hd.
  { exfalso. destruct n; simpl in Hd; [discriminate |].
    revert Hd. apply DecimalPos.Unsigned.to_uint_nonnil. }
  2-10: repeat split; reflexivity.
  simpl DecimalString.NilEmpty.string_of_uint. rewrite append_cons.
  split; [reflexivity |]. split; [reflexivity |].
  destruct u; try (split; reflexivity).
  destruct tail as [| c r]; [split; reflexivity |].
  simpl in Ht. simpl DecimalString.NilEmpty.string_of_uint.
  change ("" ++ String c r)%string with (String c r).
  rewrite !startsWith_cons.
  split.
  - destruct (Ascii.eqb_spec "x" c) as [<- | _]; [discriminate Ht |].
    rewrite andb_false_r. reflexivity.
  - destruct (Ascii.eqb_spec "X" c) as [<- | _]; [discriminate Ht |].
    rewrite andb_false_r. reflexivity.
Qed.

Lemma toNumber_small neg n :
  (n <= 2 ^ 53)%N -> toNumber neg n 0 = Dec neg n 0.
Proof.
  intros Hn. unfold toNumber.
  destruct (N.eqb_spec n 0) as [-> | _]; [reflexivity |].
  apply N.leb_le in Hn. rewrite Hn. reflexivity.
Qed.

(** X1.  A field whose type includes "int" reads the decimal numeral of
    [n] back as the Number value of [n], which for [n] up to 2^53 is [n]
    itself: white space before the numeral, an optional minus sign, and
    whatever follows the digits (if it starts with a character that is
    neither a digit nor a letter) do not change the value. *)
Theorem int_field_reads_decimal fd ws neg n tail :
  includes "int" (field_type fd) = true ->
  blank ws ->
  endsNumeral tail ->
  typeCastValue fd (ws ++ signText neg ++ numeral n ++ tail)%string =
    SNum (toNumber neg n 0) /\
  ((n <= 2 ^ 53)%N ->
   typeCastValue fd (ws ++ signText neg ++ numeral n ++ tail)%string =
     SNum (Dec neg n 0)).
Proof.
  intros Hint Hws Ht.
  assert (H : typeCastValue fd (ws ++ signText neg ++ numeral n ++ tail)%string =
              SNum (toNumber neg n 0)).
  { unfold typeCastValue. rewrite Hint. f_equal.
    unfold parseInt. rewrite (trimStart_app _ _ Hws).
    destruct (numeral_head n tail Ht) as (Htrim & Hsign & Hx1 & Hx2).
    set (r := (numeral n ++ tail)%string) in *.
    destruct neg.
    - change (signText true ++ r)%string with (String "-" r).
      change (trimStart (String "-" r)) with (String "-" r).
      change (readSign (String "-" r)) with (true, r).
      cbv beta iota. rewrite Hx1, Hx2. cbn [orb].
      subst r. rewrite (numeral_value n tail Ht). reflexivity.
    - change (signText false ++ r)%string with r.
      rewrite Htrim, Hsign. cbv beta iota. rewrite Hx1, Hx2. cbn [orb].
      subst r. rewrite (numeral_value n tail Ht). reflexivity. }
  split; [exact H |].
  intros Hn. rewrite H, (toNumber_small neg n Hn). reflexivity.
Qed.

Lemma int_field_reads_decimal_witness :
  typeCastValue intField (" " ++ signText true ++ numeral 42 ++ "%")%string =
    SNum (Dec true 42 0) /\
  typeCastValue intField ("" ++ signText false ++ numeral 9007199254740993 ++ "")%string =
    SNum (Dec false 9007199254740992 0).
Proof.
  split.
  - apply (proj2 (int_field_reads_decimal intField " " true 42 "%"
                    eq_refl eq_refl eq_refl)).
    apply N.leb_le. vm_compute. reflexivity.
  - apply (proj1 (int_field_reads_decimal intField "" false 9007199254740993 ""
                    eq_refl eq_refl I)).
Defined.

(** X2.  In a field parsed as a number (a type that includes "int" or
    "float"), white space before the text does not change the value, and a
    text of white space only, or no text, is NaN. *)
Theorem numeric_field_ignores_leading_blank fd ws v :
  numericType fd = true ->
  blank ws ->
  typeCastValue fd (ws ++ v)%string = typeCastValue fd v /\
  typeCastValue fd ws = SNum NaN.
Proof.
  intros Hnum Hws. unfold numericType in Hnum. unfold typeCastValue.
  split.
  - destruct (includes "int" (field_type fd)).
    + unfold parseInt. rewrite (trimStart_app _ _ Hws). reflexivity.
    + simpl in Hnum. rewrite Hnum. unfold parseFloat.
      rewrite (trimStart_app _ _ Hws). reflexivity.
  - unfold blank in Hws.
    destruct (includes "int" (field_type fd)).
    + unfold parseInt. rewrite Hws. reflexivity.
    + simpl in Hnum. rewrite Hnum. unfold parseFloat. rewrite Hws. reflexivity.
Qed.

Lemma numeric_field_ignores_leading_blank_witness :
  typeCastValue floatField ("  " ++ "1.5")%string = typeCastValue floatField "1.5" /\
  typeCastValue floatField "  " = SNum NaN.
Proof. apply (numeric_field_ignores_leading_blank floatField "  " "1.5"); reflexivity. Defined.

Lemma whitespace_not_letter c :
  isWhiteSpace c = true -> lowerChar c <> "f"%char /\ c <> "0"%char.
Proof.
  destruct c as [b0 b1 b2 b3 b4 b5 b6 b7].
  destruct b0, b1, b2, b3, b4, b5, b6, b7; vm_compute; intros H;
    try discriminate H; split; discriminate.
Qed.

(** X3.  In a boolean field the text is compared with "false" and "0"
    before it is trimmed: a text that starts with white space is true
    whenever anything but white space follows, also when that is "false"
    or "0". *)
Theorem padded_text_in_boolean_field f c v :
  declaredBoolean f ->
  isWhiteSpace c = true ->
  typeCastValue f (String c v) = SBool (negb (String.eqb (trim v) "")).
Proof.
  intros Hb Hc.
  destruct (declaredBoolean_branch f Hb) as (Hi & Hf & Hbool).
  destruct (whitespace_not_letter c Hc) as [Hl H0].
  unfold typeCastValue. rewrite Hi, Hf, Hbool.
  destruct (String.eqb_spec (toLowerCase (String c v)) "false") as [E | _].
  { simpl in E. injection E as E _. contradiction. }
  destruct (String.eqb_spec (String c v) "0") as [E | _].
  { injection E as E _. contradiction. }
  unfold trim. simpl trimStart. rewrite Hc. reflexivity.
Qed.

Lemma padded_text_in_boolean_field_witness :
  typeCastValue boolField (String " " "false") =
    SBool (negb (String.eqb (trim "false") "")).
Proof.
  apply (padded_text_in_boolean_field boolField " "%char "false").
  - left. reflexivity.
  - reflexivity.
Defined.

Lemma startsWith_app_other needle c suf : forall t,
  occurs c needle = false ->
  startsWith needle (t ++ String c suf)%string = startsWith needle t.
Proof.
  induction needle as [| a needle IH]; intros t Hc; [destruct t; reflexivity |].
  simpl in Hc. apply orb_false_elim in Hc as [Hac Hrest].
  destruct t as [| b t].
  - change ("" ++ String c suf)%string with (String c suf).
    rewrite startsWith_cons, Hac. reflexivity.
  - rewrite append_cons, !startsWith_cons, (IH t Hrest). reflexivity.
Qed.

Lemma includes_app_other needle c suf t :
  occurs c needle = false ->
  includes needle (String c suf) = false ->
  needle <> "" ->
  includes needle (t ++ String c suf)%string = includes needle t.
Proof.
  intros Hc Hsuf Hne. induction t as [| b t IH].
  - change ("" ++ String c suf)%string with (String c suf). rewrite Hsuf.
    destruct needle; [congruence | reflexivity].
  - rewrite append_cons.
    change (includes needle (String b (t ++ String c suf)%string))
      with (startsWith needle (String b (t ++ String c suf)%string)
            || includes needle (t ++ String c suf)%string).
    rewrite IH. rewrite <- append_cons, (startsWith_app_other _ _ _ _ Hc).
    reflexivity.
Qed.

(** X4.  The array form of a type coerces a text exactly as the type
    itself does: the suffix "[]" changes where the value is stored, not the
    value. *)
Theorem array_type_coerces_like_scalar n1 n2 t v :
  typeCastValue {| field_name := n1; field_type := (t ++ "[]")%string |} v =
  typeCastValue {| field_name := n2; field_type := t |} v.
Proof.
  unfold typeCastValue. cbn [field_type].
  rewrite !includes_app_other by (reflexivity || discriminate).
  reflexivity.
Qed.




Lemma throwsOn_named fields m1 m2 :
  attributeName m1 = attributeName m2 -> throwsOn fields m1 = throwsOn fields m2.
Proof. intros E. unfold throwsOn. rewrite E. reflexivity. Qed.

Lemma throwing_marker_carries_over fields ms1 ms2 :
  (forall n, valuesOf n ms1 = valuesOf n ms2) ->
  Exists (fun m => throwsOn fields m = true) ms1 ->
  Exists (fun m => throwsOn fields m = true) ms2.
Proof.
  intros Hsame Hex. apply Exists_exists in Hex as (m & Hin & Ht).
  assert (Hn : attributeName m ∈ map attributeName ms2).
  { destruct (decide (attributeName m ∈ map attributeName ms2)) as [H | H];
      [exact H |].
    exfalso. apply valuesOf_nil_iff in H. rewrite <- Hsame in H.
    apply valuesOf_nil_iff in H. apply H.
    apply list_elem_of_fmap. exists m. split; [reflexivity | exact Hin]. }
  apply list_elem_of_fmap in Hn as (m2 & E & Hin2).
  apply Exists_exists. exists m2. split; [exact Hin2 |].
  rewrite <- (throwsOn_named fields m m2 E). exact Ht.
Qed.

Lemma throws_or_not fields ms :
  Forall (fun m => throwsOn fields m = false) ms \/
  Exists (fun m => throwsOn fields m = true) ms.
Proof.
  induction ms as [| m ms [IH | IH]].
  - left. constructor.
  - destruct (throwsOn fields m) eqn:Ht.
    + right. apply Exists_cons_hd. exact Ht.
    + left. constructor; assumption.
  - right. apply Exists_cons_tl. exact IH.
Qed.

(** X6.  The harvested document depends only on the texts marked for each
    field, in their order: two pages, all markers declared, that agree on
    the sequence of texts of every field give the same document, whatever
    the order of markers of different fields. *)
Theorem harvest_depends_on_each_field_alone l s ms1 ms2 :
  Forall (declared (fieldsAt s l)) ms1 ->
  Forall (declared (fieldsAt s l)) ms2 ->
  (forall n, valuesOf n ms1 = valuesOf n ms2) ->
  harvest l ∅ ms1 s = harvest l ∅ ms2 s.
Proof.
  intros H1 H2 Hsame.
  destruct (throws_or_not (fieldsAt s l) ms1) as [Hn1 | Ht1].
  - destruct (throws_or_not (fieldsAt s l) ms2) as [Hn2 | Ht2].
    + destruct (harvest_returns l s ms1 ∅ H1 Hn1 (settled_empty _))
        as (d1 & Hr1 & _ & Hh1 & Ho1).
      destruct (harvest_returns l s ms2 ∅ H2 Hn2 (settled_empty _))
        as (d2 & Hr2 & _ & Hh2 & Ho2).
      rewrite Hr1, Hr2. f_equal. f_equal. apply map_eq. intros n.
      destruct (findField (fieldsAt s l) n) as [fd |] eqn:Hn.
      * rewrite (Hh1 n fd Hn), (Hh2 n fd Hn), Hsame. reflexivity.
      * rewrite (Ho1 n Hn), (Ho2 n Hn). reflexivity.
    + exfalso.
      assert (Ht1 : Exists (fun m => throwsOn (fieldsAt s l) m = true) ms1).
      { apply (throwing_marker_carries_over _ ms2 ms1); [| exact Ht2].
        intros n. symmetry. apply Hsame. }
      apply Exists_exists in Ht1 as (m & Hin & Ht).
      rewrite Forall_forall in Hn1. rewrite (Hn1 m Hin) in Ht. discriminate.
  - pose proof (throwing_marker_carries_over _ ms1 ms2 Hsame Ht1) as Ht2.
    rewrite (harvest_throws l s ms1 ∅ H1 Ht1 (settled_empty _)).
    rewrite (harvest_throws l s ms2 ∅ H2 Ht2 (settled_empty _)).
    reflexivity.
Qed.

Lemma harvest_depends_on_each_field_alone_witness :
  harvest 0 ∅ swappedPair (initial docsSchema) =
  harvest 0 ∅ sortedPair (initial docsSchema).
Proof.
  apply (harvest_depends_on_each_field_alone 0 (initial docsSchema)
           swappedPair sortedPair).
  - repeat constructor; eexists; reflexivity.
  - repeat constructor; eexists; reflexivity.
  - intros n. unfold swappedPair, sortedPair. rewrite !valuesOf_cons.
    simpl attributeName.
    destruct (decide ("tags" = n)), (decide ("title" = n)); subst;
      try discriminate; reflexivity.
Defined.

Lemma orElse_ten_truthy a : truthy (orElse a ten) = true.
Proof.
  unfold orElse. destruct a as [v |]; [| reflexivity].
  destruct (truthy v) eqn:Hv; [exact Hv | reflexivity].
Qed.

(** X7.  Indexing one page returns, exits the process, or throws the
    TypeError of line 52; it throws only when a marker names an array-typed
    field called like a member of [Object.prototype], and then nothing has
    been requested.  It makes at most one request, which creates in the new
    collection a document whose [page_path] is the path of the page and
    whose [page_priority_score] is truthy.  It returns exactly when every
    marker is declared, none names such an array-typed field, and the
    request, if any, is accepted. *)
Theorem indexContent_contract W html path l s o s' :
  indexContentInTypesense W html path l s = (o, s') ->
  (o = Returned tt \/ o = Exited \/ o = Thrown notAFunction) /\
  objects s' = objects s /\
  exists evs,
    calls s' = calls s ++ evs /\
    length evs <= 1 /\
    Forall (submits (nameAt s l) path) evs /\
    (o = Returned tt <->
       Forall accepted evs /\
       Forall (declared (fieldsAt s l)) (w_select W html) /\
       Forall (fun m => throwsOn (fieldsAt s l) m = false) (w_select W html)) /\
    (o = Thrown notAFunction ->
       evs = [] /\
       Exists (fun m => throwsOn (fieldsAt s l) m = true) (w_select W html)).
Proof.
  unfold indexContentInTypesense. rewrite bind_unfold.
  destruct (harvest_cases (fieldsAt s l) (w_select W html)) as [[Hall Hno] | Hex].
  - destruct (harvest_returns l s _ ∅ Hall Hno (settled_empty _))
      as (doc & Hrun & _).
    rewrite Hrun. destruct (isObjectEmpty doc).
    + intros [= <- <-]. split; [left; reflexivity |]. split; [reflexivity |].
      exists []. simpl. rewrite app_nil_r.
      split; [reflexivity |]. split; [lia |]. split; [constructor |].
      split; [| discriminate].
      split; [intros _; split; [constructor | split; assumption] | reflexivity].
    + unfold tryCatch, bind, report, readObject, request, panic, nameAt. simpl.
      assert (Hsub : forall ok,
                submits (schema_name (default emptySchema (objects s !! l))) path
                  (ev (DocumentCreate
                         (schema_name (default emptySchema (objects s !! l)))
                         (complete path doc)) ok)).
      { intros ok. exists (complete path doc), (orElse (doc !! "page_priority_score") ten).
        split; [reflexivity |]. split; [apply complete_path |].
        split; [apply complete_priority | apply orElse_ten_truthy]. }
      destruct (w_documentCreate W _ _ _) as [[] | e]; simpl;
        intros [= <- <-]; simpl.
      * split; [left; reflexivity |]. split; [reflexivity |].
        eexists [_]. split; [reflexivity |]. split; [simpl; lia |].
        split; [constructor; [apply (Hsub true) | constructor] |].
        split; [| discriminate].
        split; [intros _; split; [repeat constructor | split; assumption]
               | reflexivity].
      * split; [right; left; reflexivity |]. split; [reflexivity |].
        eexists [_]. split; [reflexivity |]. split; [simpl; lia |].
        split; [constructor; [apply (Hsub false) | constructor] |].
        split; [| discriminate].
        split; [discriminate |].
        intros [Hacc _]. inversion Hacc as [| ? ? Hx _]. discriminate Hx.
  - assert (Hnot : ~ (Forall (declared (fieldsAt s l)) (w_select W html) /\
                      Forall (fun m => throwsOn (fieldsAt s l) m = false)
                        (w_select W html))).
    { intros [Hall Hno]. apply Exists_exists in Hex as (m & Hm & Hbad).
      rewrite Forall_forall in Hall, Hno.
      destruct Hbad as [Hbad | Hbad]; [apply Hbad, Hall, Hm |].
      rewrite (Hno m Hm) in Hbad. discriminate. }
    destruct (harvest_stops l s _ ∅ Hex (settled_empty _))
      as [(n & Hrun & _) | [Hrun Hth]]; rewrite Hrun.
    + unfold panic. intros [= <- <-].
      split; [right; left; reflexivity |]. split; [reflexivity |].
      exists []. simpl. rewrite app_nil_r.
      split; [reflexivity |]. split; [lia |]. split; [constructor |].
      split; [| discriminate].
      split; [discriminate |]. intros [_ H]. contradiction.
    + intros [= <- <-].
      split; [right; right; reflexivity |]. split; [reflexivity |].
      exists []. rewrite app_nil_r.
      split; [reflexivity |]. split; [simpl; lia |]. split; [constructor |].
      split; [| intros _; split; [reflexivity | exact Hth]].
      split; [discriminate |]. intros [_ H]. contradiction.
Qed.

Lemma indexContent_contract_witness :
  let r := indexContentInTypesense (scripted (liveSite (fun _ => false)))
             (page_html tagsPage) "/blog/" 0 (initial docsSchema) in
  (fst r = Returned tt \/ fst r = Exited \/ fst r = Thrown notAFunction) /\
  objects (snd r) = objects (initial docsSchema) /\
  exists evs,
    calls (snd r) = calls (initial docsSchema) ++ evs /\
    length evs <= 1 /\
    Forall (submits (nameAt (initial docsSchema) 0) "/blog/") evs /\
    (fst r = Returned tt <->
     Forall accepted evs /\
     Forall (declared (fieldsAt (initial docsSchema) 0))
       (w_select (scripted (liveSite (fun _ => false))) (page_html tagsPage)) /\
     Forall (fun m => throwsOn (fieldsAt (initial docsSchema) 0) m = false)
       (w_select (scripted (liveSite (fun _ => false))) (page_html tagsPage))) /\
    (fst r = Thrown notAFunction ->
     evs = [] /\
     Exists (fun m => throwsOn (fieldsAt (initial docsSchema) 0) m = true)
       (w_select (scripted (liveSite (fun _ => false))) (page_html tagsPage))).
Proof.
  intros r.
  apply (indexContent_contract (scripted (liveSite (fun _ => false)))
           (page_html tagsPage) "/blog/" 0 (initial docsSchema) (fst r) (snd r)).
  apply surjective_pairing.
Defined.

Lemma submits_facts c path evs :
  Forall (submits c path) evs ->
  Forall (fun e => populates e = true) evs /\
  Forall (targets c) evs /\ readsOf evs = [].
Proof.
  induction 1 as [| e evs (d & v & He & _) _ (IH1 & IH2 & IH3)].
  - repeat split; constructor.
  - split; [| split].
    + constructor; [unfold populates; rewrite He; reflexivity | exact IH1].
    + constructor; [unfold targets; rewrite He; reflexivity | exact IH2].
    + unfold readsOf in *. simpl. unfold readOf at 1. rewrite He. exact IH3.
Qed.

Lemma readsOf_read f ok evs :
  readsOf (ev (ReadFile f) ok :: evs) = f :: readsOf evs.
Proof. reflexivity. Qed.

Lemma indexFiles_detail W root l files : forall s o s',
  indexFiles W root l files s = (o, s') ->
  objects s' = objects s /\
  exists idx,
    calls s' = calls s ++ idx /\
    Forall (fun e => populates e = true) idx /\
    Forall (targets (nameAt s l)) idx /\
    (exists init tail, idx = init ++ tail /\ Forall accepted init /\ length tail <= 1) /\
    (exists rest, files = readsOf idx ++ rest) /\
    (o = Returned tt -> Forall accepted idx /\ readsOf idx = files).
Proof.
  induction files as [| file files IH]; intros s o s' H; simpl in H.
  - injection H as <- <-. split; [reflexivity |]. exists [].
    rewrite app_nil_r. repeat split; try constructor.
    + exists [], []. repeat split; [constructor | simpl; lia].
    + exists []. reflexivity.
  - rewrite bind_unfold in H. unfold report in H. rewrite bind_unfold in H.
    unfold request in H. simpl in H.
    destruct (w_readFile W (calls s) file) as [html | e].
    + rewrite bind_unfold in H.
      match type of H with context [indexContentInTypesense W html ?p l ?st] =>
        set (s1 := st) in *; set (path := p) in *
      end.
      assert (Hn1 : nameAt s1 l = nameAt s l) by reflexivity.
      destruct (indexContentInTypesense W html path l s1) as [o1 s2] eqn:H1.
      apply indexContent_contract in H1
        as ([-> | Hout] & Ho1 & evs1 & Hc1 & Hlen1 & Hsub1 & Hret1 & _).
      * destruct Hret1 as [Hret1 _]. destruct (Hret1 eq_refl) as [Hacc1 _].
        destruct (submits_facts _ _ _ Hsub1) as (Hp1 & Ht1 & Hr1).
        apply IH in H as (Ho2 & idx & Hc2 & Hp2 & Ht2 & (init & tail & Hit & Hai & Hlt)
                          & (rest & Hrest) & Hret2).
        split; [rewrite Ho2, Ho1; reflexivity |].
        exists (ev (ReadFile file) true :: evs1 ++ idx).
        split; [rewrite Hc2, Hc1; subst s1; simpl; rewrite <- !app_assoc; reflexivity |].
        split; [constructor; [reflexivity |]; apply Forall_app; split; assumption |].
        split.
        { constructor; [exact I |]. apply Forall_app. split.
          - rewrite <- Hn1. exact Ht1.
          - replace (nameAt s l) with (nameAt s2 l); [exact Ht2 |].
            unfold nameAt. rewrite Ho1. reflexivity. }
        split.
        { exists (ev (ReadFile file) true :: evs1 ++ init), tail.
          split; [rewrite Hit; simpl; rewrite <- app_assoc; reflexivity |].
          split; [| exact Hlt].
          constructor; [reflexivity |]. apply Forall_app. split; assumption. }
        assert (Hreads : readsOf (ev (ReadFile file) true :: evs1 ++ idx)
                         = file :: readsOf idx).
        { rewrite readsOf_read. unfold readsOf in *. rewrite omap_app, Hr1. reflexivity. }
        split.
        { exists rest. rewrite Hreads, Hrest at 1. reflexivity. }
        intros Hret. destruct (Hret2 Hret) as [Hacc2 Hr2]. split.
        -- constructor; [reflexivity |]. apply Forall_app. split; assumption.
        -- rewrite Hreads, Hr2. reflexivity.
      * assert (H' : (o1, s2) = (o, s'))
          by (destruct Hout as [-> | ->]; exact H).
        clear H. injection H' as <- <-.
        destruct (submits_facts _ _ _ Hsub1) as (Hp1 & Ht1 & Hr1).
        split; [rewrite Ho1; reflexivity |].
        exists (ev (ReadFile file) true :: evs1).
        split; [rewrite Hc1; subst s1; simpl; rewrite <- !app_assoc; reflexivity |].
        split; [constructor; [reflexivity | exact Hp1] |].
        split; [constructor; [exact I | rewrite <- Hn1; exact Ht1] |].
        split.
        { exists [ev (ReadFile file) true], evs1. repeat split; [| exact Hlen1].
          repeat constructor. }
        split.
        { exists files. rewrite readsOf_read, Hr1. reflexivity. }
        intros ->. destruct Hout; discriminate.
    + injection H as <- <-. split; [reflexivity |].
      exists [ev (ReadFile file) false]. split; [reflexivity |].
      split; [repeat constructor |]. split; [repeat constructor |].
      split.
      { exists [], [ev (ReadFile file) false]. repeat split; [constructor | simpl; lia]. }
      split; [exists files; reflexivity | discriminate].
Qed.

Lemma discoverOld_detail W root a s old ys s2 :
  calls s = afterListing root ->
  discoverOld W a s = (Returned (old, ys), s2) ->
  nameGiven old = aliasTarget W root a /\
  ys = carriedRules W root a /\
  objects s2 = objects s /\
  exists disc,
    calls s2 = calls s ++ disc /\
    map ev_call disc = discoveryCalls W root a.
Proof.
  intros Hs. unfold carriedRules, discoveryCalls, aliasTarget. rewrite <- Hs.
  unfold discoverOld, tryCatch. rewrite bind_unfold. unfold request at 1.
  destruct (w_aliasRetrieve W (calls s) a) as [t | e].
  - rewrite bind_unfold. unfold report at 1.
    destruct (nameGiven t) as [o |] eqn:Hold.
    + rewrite bind_unfold. unfold report at 1. rewrite bind_unfold.
      match goal with |- context [getExistingSynonyms W o ?st] =>
        set (st0 := st);
        pose proof (getExistingSynonyms_cases W o st0) as Hsyn;
        assert (Hc0 : calls st0 = calls s ++ [ev (AliasRetrieve a) true])
          by reflexivity
      end.
      rewrite Hc0 in Hsyn.
      destruct (w_synonymsRetrieve W (calls s ++ [_]) o) as [r | e'];
        rewrite Hsyn; rewrite bind_unfold; unfold report at 1, ret;
        intros [= <- <- <-]; cbn [calls objects record]; rewrite ?Hc0;
        (split; [exact Hold |]); (split; [reflexivity |]);
        (split; [reflexivity |]); eexists [_; _];
        rewrite <- app_assoc; split; reflexivity.
    + unfold ret. intros [= <- <- <-]. cbn [calls objects record].
      split; [exact Hold |]. split; [reflexivity |]. split; [reflexivity |].
      eexists [_]. split; reflexivity.
  - rewrite bind_unfold. unfold report at 1, ret.
    intros [= <- <- <-]. cbn [calls objects record].
    split; [reflexivity |]. split; [reflexivity |]. split; [reflexivity |].
    eexists [_]. split; reflexivity.
Qed.

Lemma run_detail W gen cs publicDir rootDir o s' :
  run W gen cs publicDir rootDir = (o, s') ->
  match w_listHtmlFiles W [] (default publicDir (nameGiven rootDir)) with
  | Rejected e =>
      o = Thrown e /\
      calls s' = [ev (ListHtmlFiles (default publicDir (nameGiven rootDir))) false]
  | Resolved files =>
      exists disc okC,
        map ev_call disc =
          discoveryCalls W (default publicDir (nameGiven rootDir)) (schema_name cs) /\
        let pre := afterListing (default publicDir (nameGiven rootDir)) ++ disc
                     ++ [ev (CollectionCreate (withName cs (gen cs))) okC] in
        ((okC = false /\ o = Exited /\ calls s' = pre) \/
         (okC = true /\
          exists idx,
            Forall (fun e => populates e = true) idx /\
            Forall (targets (gen cs)) idx /\
            (exists init tail,
               idx = init ++ tail /\ Forall accepted init /\ length tail <= 1) /\
            (exists rest, files = readsOf idx ++ rest) /\
            ((o <> Returned tt /\ calls s' = pre ++ idx) \/
             (o = Returned tt /\ Forall accepted idx /\ readsOf idx = files /\
              exists syn okA del,
                calls s' = pre ++ idx ++ syn
                             ++ ev (AliasUpsert (schema_name cs) (gen cs)) okA :: del /\
                map ev_call syn =
                  map (upsertOf (gen cs))
                    (carriedRules W (default publicDir (nameGiven rootDir))
                       (schema_name cs)) /\
                map ev_call del =
                  deletionCalls W (default publicDir (nameGiven rootDir))
                    (schema_name cs)))))
  end.
Proof.
  unfold run, onPostBuild.
  set (root := default publicDir (nameGiven rootDir)).
  intros H.
  rewrite bind_unfold in H. unfold report at 1 in H.
  rewrite bind_unfold in H. unfold request at 1 in H.
  cbn [calls reports objects initial] in H.
  destruct (w_listHtmlFiles W [] root) as [files | e].
  2:{ injection H as <- <-. split; reflexivity. }
  rewrite bind_unfold in H. unfold readObject at 1 in H.
  cbn [calls reports objects record] in H.
  rewrite lookup_singleton_eq in H. cbn [default option_rect] in H.
  rewrite bind_unfold in H. unfold spread at 1 in H.
  cbn [calls reports objects record] in H.
  rewrite lookup_singleton_eq in H.
  pose proof (fresh_after_caller cs) as Hfresh.
  set (l := fresh (dom ({[ 0%nat := cs ]} : gmap nat CollectionSchema))) in *.
  rewrite bind_unfold in H. unfold assignName at 1 in H.
  cbn [calls reports objects record default] in H.
  rewrite bind_unfold in H. unfold report at 1 in H.
  cbn [calls reports objects record default] in H.
  change (id cs) with cs in H.
  match type of H with context [bind (readObject 0) _ ?st] => set (s1 := st) in H end.
  assert (Hc1 : calls s1 = afterListing root) by reflexivity.
  assert (Ho0 : objects s1 !! 0%nat = Some cs).
  { subst s1. cbn [objects]. rewrite lookup_alter_ne by exact Hfresh.
    rewrite lookup_insert_ne by exact Hfresh. apply lookup_singleton_eq. }
  assert (Hol : objects s1 !! l = Some (withName cs (gen cs))).
  { subst s1. cbn [objects]. rewrite lookup_alter_eq, lookup_insert_eq.
    reflexivity. }
  clearbody s1.
  rewrite bind_unfold in H. unfold readObject at 1 in H.
  rewrite Ho0 in H. cbn [default] in H. change (id cs) with cs in H.
  rewrite bind_unfold in H.
  destruct (discoverOld_trace W (schema_name cs) s1)
    as (old & ys & okA0 & s2 & Hd & _ & _).
  rewrite Hd in H. cbv iota beta in H.
  destruct (discoverOld_detail W root _ _ _ _ _ Hc1 Hd)
    as (Hold & Hys & Hobj2 & disc & Hc2 & Hdisc).
  clear Hd.
  rewrite bind_unfold in H.
  destruct (createNew_trace W (gen cs) l s2) as (okC & s3 & Hcr & Hobj3 & Hc3).
  rewrite Hcr in H. rewrite Hobj2, Hol in Hc3. cbn [default] in Hc3.
  change (id ?x) with x in Hc3.
  exists disc, okC. split; [exact Hdisc |]. cbv zeta.
  assert (Hpre : calls s3 = afterListing root ++ disc
                   ++ [ev (CollectionCreate (withName cs (gen cs))) okC]).
  { rewrite Hc3, Hc2, Hc1, <- app_assoc. reflexivity. }
  destruct okC.
  2:{ injection H as <- <-. left. repeat split. exact Hpre. }
  right. split; [reflexivity |].
  rewrite bind_unfold in H.
  destruct (indexFiles W root l files s3) as [oi s4] eqn:Hidx.
  apply indexFiles_detail in Hidx
    as (Hobj4 & idx & Hc4 & Hpop & Htgt & Hsplit & Hprefix & Hret).
  assert (Hname : nameAt s3 l = gen cs).
  { unfold nameAt. rewrite Hobj3, Hobj2, Hol. reflexivity. }
  rewrite Hname in Htgt.
  exists idx. split; [exact Hpop |]. split; [exact Htgt |].
  split; [exact Hsplit |]. split; [exact Hprefix |].
  assert (Hobj04 : objects s4 !! 0%nat = Some cs).
  { rewrite Hobj4, Hobj3, Hobj2. exact Ho0. }
  destruct oi as [[] | e |].
  2:{ injection H as <- <-. left. split; [discriminate |].
      rewrite Hc4, Hpre. reflexivity. }
  2:{ injection H as <- <-. left. split; [discriminate |].
      rewrite Hc4, Hpre. reflexivity. }
  destruct (Hret eq_refl) as [Hacc Hreads].
  rewrite bind_unfold in H.
  destruct (carrySynonyms_trace W (gen cs) ys s4)
    as (syn & s5 & Hcs & Hobj5 & Hc5 & Hmap).
  rewrite Hcs in H.
  rewrite bind_unfold in H. unfold readObject at 1 in H.
  rewrite Hobj5, Hobj04 in H. cbn [default] in H. change (id cs) with cs in H.
  rewrite bind_unfold in H.
  destruct (swapAlias_trace W (schema_name cs) (gen cs) s5)
    as (okS & s6 & Hsw & Hobj6 & Hc6 & _).
  rewrite Hsw in H.
  rewrite bind_unfold in H.
  destruct (deleteOld_trace W old s6) as (s7 & Hdel & Hobj7 & Hc7).
  rewrite Hdel in H.
  rewrite bind_unfold in H. unfold readObject at 1, report in H.
  injection H as <- <-. cbn [calls objects].
  right. split; [reflexivity |]. split; [exact Hacc |]. split; [exact Hreads |].
  rewrite Hold in Hc7. unfold deletionCalls.
  destruct (aliasTarget W root (schema_name cs)) as [o' |].
  - destruct Hc7 as [okD Hc7].
    exists syn, okS, [ev (CollectionDelete o') okD].
    split; [| split; [rewrite Hmap, Hys; reflexivity | reflexivity]].
    rewrite Hc7, Hc6, Hc5, Hc4, Hpre.
    repeat (rewrite <- app_assoc; cbn [app]). reflexivity.
  - exists syn, okS, [].
    split; [| split; [rewrite Hmap, Hys; reflexivity | reflexivity]].
    rewrite Hc7, Hc6, Hc5, Hc4, Hpre.
    repeat (rewrite <- app_assoc; cbn [app]). reflexivity.
Qed.

Lemma map_calls_Forall (Q : Call -> Prop) (evs : History) cs :
  map ev_call evs = cs -> Forall Q cs -> Forall (fun e => Q (ev_call e)) evs.
Proof.
  intros <-. induction evs as [| e evs IH]; intros H; [constructor |].
  inversion H; subst. constructor; auto.
Qed.

Lemma discovery_kind W root a disc (Q : Call -> Prop) :
  map ev_call disc = discoveryCalls W root a ->
  (forall x, Q (AliasRetrieve x)) -> (forall x, Q (SynonymsRetrieve x)) ->
  Forall (fun e => Q (ev_call e)) disc.
Proof.
  intros Hd Qa Qs. eapply map_calls_Forall; [exact Hd |].
  unfold discoveryCalls. destruct (aliasTarget W root a); repeat constructor; auto.
Qed.

Lemma upserts_kind new ys syn (Q : Call -> Prop) :
  map ev_call syn = map (upsertOf new) ys ->
  (forall i t, Q (SynonymUpsert new i t)) ->
  Forall (fun e => Q (ev_call e)) syn.
Proof.
  intros Hs Qu. eapply map_calls_Forall; [exact Hs |].
  clear Hs. induction ys; simpl; constructor; [apply Qu | assumption].
Qed.

Lemma deletion_kind W root a del (Q : Call -> Prop) :
  map ev_call del = deletionCalls W root a ->
  (forall x, Q (CollectionDelete x)) ->
  Forall (fun e => Q (ev_call e)) del.
Proof.
  intros Hd Qd. eapply map_calls_Forall; [exact Hd |].
  unfold deletionCalls. destruct (aliasTarget W root a); repeat constructor; auto.
Qed.

Lemma population_kind idx (Q : Call -> Prop) :
  Forall (fun e => populates e = true) idx ->
  (forall f, Q (ReadFile f)) -> (forall c d, Q (DocumentCreate c d)) ->
  Forall (fun e => Q (ev_call e)) idx.
Proof.
  intros Hp Qr Qd. eapply List.Forall_impl; [| exact Hp].
  intros e He. unfold populates in He. destruct (ev_call e); try discriminate; auto.
Qed.

(** X8.  Every document a run creates and every synonym it upserts goes
    to the collection with the generated name.  So a collection with any
    other name receives neither: the old generation that the alias lookup
    finds, when the generated name differs from its name, and the
    collection named like the alias, when the generated name differs from
    the alias.  (A generator that returns the name of the old generation
    makes the run write into it.) *)
Theorem writes_go_to_the_new_collection W gen cs publicDir rootDir o s' :
  run W gen cs publicDir rootDir = (o, s') ->
  Forall (targets (gen cs)) (calls s') /\
  (forall old,
     aliasTarget W (default publicDir (nameGiven rootDir)) (schema_name cs)
       = Some old ->
     gen cs <> old ->
     Forall (fun e => ~ writesTo old e) (calls s')) /\
  (gen cs <> schema_name cs ->
   Forall (fun e => ~ writesTo (schema_name cs) e) (calls s')).
Proof.
  intros Hrun.
  assert (Ht : Forall (targets (gen cs)) (calls s')).
  { pose proof (run_detail _ _ _ _ _ _ _ Hrun) as Hd.
    destruct (w_listHtmlFiles W [] _) as [files | e].
    2:{ destruct Hd as [_ ->]. repeat constructor. }
    destruct Hd as (disc & okC & Hdisc & Hd). cbv zeta in Hd.
    assert (Hpre : Forall (targets (gen cs))
                     (afterListing (default publicDir (nameGiven rootDir)) ++ disc
                        ++ [ev (CollectionCreate (withName cs (gen cs))) okC])).
    { apply Forall_app. split; [repeat constructor |]. apply Forall_app. split.
      - apply (discovery_kind _ _ _ _ (fun c => match c with
                 | DocumentCreate c _ | SynonymUpsert c _ _ => c = gen cs
                 | _ => True end) Hdisc); intros; exact I.
      - repeat constructor. }
    destruct Hd as [(_ & _ & ->) | (_ & idx & Hp & Ht & _ & _ & Hd)]; [exact Hpre |].
    destruct Hd as [(_ & ->) | (_ & _ & _ & syn & okA & del & -> & Hsyn & Hdel)].
    - apply Forall_app. split; assumption.
    - apply Forall_app. split; [exact Hpre |].
      apply Forall_app. split; [exact Ht |].
      apply Forall_app. split.
      + apply (upserts_kind _ _ _ (fun c => match c with
                 | DocumentCreate c _ | SynonymUpsert c _ _ => c = gen cs
                 | _ => True end) Hsyn). reflexivity.
      + constructor; [exact I |].
        apply (deletion_kind _ _ _ _ (fun c => match c with
                 | DocumentCreate c _ | SynonymUpsert c _ _ => c = gen cs
                 | _ => True end) Hdel). intros; exact I. }
  assert (Hother : forall c, gen cs <> c ->
                     Forall (fun e => ~ writesTo c e) (calls s')).
  { intros c Hne. eapply List.Forall_impl; [| exact Ht].
    intros e He Hw. unfold targets in He. unfold writesTo in Hw.
    destruct (ev_call e); try contradiction; congruence. }
  split; [exact Ht |]. split.
  - intros old _ Hne. apply Hother. exact Hne.
  - apply Hother.
Qed.

Lemma writes_go_to_the_new_collection_witness :
  let r := run (scripted (liveSite (fun _ => false))) nextName docsSchema
             "/public" None in
  Forall (targets "docs_2") (calls (snd r)) /\
  Forall (fun e => ~ writesTo "docs_1" e) (calls (snd r)) /\
  Forall (fun e => ~ writesTo "docs" e) (calls (snd r)).
Proof.
  intros r.
  destruct (writes_go_to_the_new_collection (scripted (liveSite (fun _ => false)))
              nextName docsSchema "/public" None (fst r) (snd r))
    as (Ht & Hold & Halias).
  - apply surjective_pairing.
  - split; [exact Ht |]. split.
    + apply (Hold "docs_1"); [reflexivity | discriminate].
    + apply Halias. discriminate.
Defined.

Lemma map_nil_inv {A B} (f : A -> B) (l : list A) : map f l = [] -> l = [].
Proof. destruct l; [reflexivity | discriminate]. Qed.

(** X9.  When the alias lookup is rejected, or its reply names no
    collection (the name is missing or empty), the run asks for no
    synonyms, upserts none and deletes nothing. *)
Theorem run_without_old_generation W gen cs publicDir rootDir o s' :
  run W gen cs publicDir rootDir = (o, s') ->
  aliasTarget W (default publicDir (nameGiven rootDir)) (schema_name cs) = None ->
  Forall (fun e => concernsOld (ev_call e) = false) (calls s').
Proof.
  intros Hrun Hnone. pose proof (run_detail _ _ _ _ _ _ _ Hrun) as Hd.
  destruct (w_listHtmlFiles W [] _) as [files | e].
  2:{ destruct Hd as [_ ->]. repeat constructor. }
  destruct Hd as (disc & okC & Hdisc & Hd). cbv zeta in Hd.
  unfold discoveryCalls, carriedRules, deletionCalls in *. rewrite Hnone in *.
  assert (Hpre : Forall (fun e => concernsOld (ev_call e) = false)
                   (afterListing (default publicDir (nameGiven rootDir)) ++ disc
                      ++ [ev (CollectionCreate (withName cs (gen cs))) okC])).
  { apply Forall_app. split; [repeat constructor |]. apply Forall_app. split.
    - apply (map_calls_Forall (fun c => concernsOld c = false) disc _ Hdisc).
      repeat constructor.
    - repeat constructor. }
  destruct Hd as [(_ & _ & ->) | (_ & idx & Hp & _ & _ & _ & Hd)]; [exact Hpre |].
  assert (Hidx : Forall (fun e => concernsOld (ev_call e) = false) idx).
  { apply (population_kind idx (fun c => concernsOld c = false) Hp); reflexivity. }
  destruct Hd as [(_ & ->) | (_ & _ & _ & syn & okA & del & -> & Hsyn & Hdel)].
  - apply Forall_app. split; assumption.
  - apply map_nil_inv in Hsyn, Hdel. subst syn del.
    apply Forall_app. split; [exact Hpre |].
    apply Forall_app. split; [exact Hidx |]. repeat constructor.
Qed.

Lemma run_without_old_generation_witness :
  Forall (fun e => concernsOld (ev_call e) = false)
    (calls (snd (run (scripted (siteOf [tagsPage])) nextName docsSchema
                   "/public" None))).
Proof.
  apply (run_without_old_generation (scripted (siteOf [tagsPage]))
           nextName docsSchema "/public" None
           (fst (run (scripted (siteOf [tagsPage])) nextName docsSchema
                   "/public" None))).
  - apply surjective_pairing.
  - reflexivity.
Defined.

Lemma accepted_not_rejected (l : History) e :
  Forall accepted l -> In e l -> ev_ok e = false -> False.
Proof.
  intros Hall Hin He. rewrite Forall_forall in Hall.
  apply list_elem_of_In in Hin. specialize (Hall e Hin). unfold accepted in Hall.
  congruence.
Qed.

Lemma kind_excludes (K : Call -> bool) (l : History) e :
  Forall (fun x => K (ev_call x) = false) l -> In e l -> K (ev_call e) = true -> False.
Proof.
  intros Hall Hin He. rewrite Forall_forall in Hall.
  apply list_elem_of_In in Hin. specialize (Hall e Hin). simpl in Hall. congruence.
Qed.

(** X10.  When reading a file or creating a document is rejected, that
    request is the last of the run, the run does not return, and it has
    upserted no synonym, has not upserted the alias and has deleted
    nothing: the alias still points where it did. *)
Theorem rejected_population_keeps_alias W gen cs publicDir rootDir o s' e :
  run W gen cs publicDir rootDir = (o, s') ->
  In e (calls s') ->
  populates e = true ->
  ev_ok e = false ->
  o <> Returned tt /\
  (exists before, calls s' = before ++ [e]) /\
  Forall (fun x => finishing (ev_call x) = false) (calls s').
Proof.
  intros Hrun Hin Hpop Hrej. pose proof (run_detail _ _ _ _ _ _ _ Hrun) as Hd.
  assert (Hpop' : populating (ev_call e) = true) by exact Hpop.
  destruct (w_listHtmlFiles W [] _) as [files | err].
  2:{ destruct Hd as [_ Hc]. rewrite Hc in Hin. destruct Hin as [<- | []].
      discriminate. }
  destruct Hd as (disc & okC & Hdisc & Hd). cbv zeta in Hd.
  set (pre := afterListing (default publicDir (nameGiven rootDir)) ++ disc
                ++ [ev (CollectionCreate (withName cs (gen cs))) okC]) in *.
  assert (Hpre : forall K : Call -> bool,
            K (ListHtmlFiles (default publicDir (nameGiven rootDir))) = false ->
            (forall x, K (AliasRetrieve x) = false) ->
            (forall x, K (SynonymsRetrieve x) = false) ->
            (forall x, K (CollectionCreate x) = false) ->
            Forall (fun x => K (ev_call x) = false) pre).
  { intros K K1 K2 K3 K4. subst pre.
    apply Forall_app. split; [repeat constructor; exact K1 |].
    apply Forall_app. split.
    - apply (discovery_kind _ _ _ _ (fun c => K c = false) Hdisc); assumption.
    - repeat constructor. apply K4. }
  destruct Hd as [(_ & _ & Hc) | (_ & idx & Hp & _ & Hsplit & _ & Hd)].
  { exfalso. rewrite Hc in Hin.
    eapply (kind_excludes populating); [| exact Hin | exact Hpop'].
    apply Hpre; reflexivity. }
  destruct Hd as [(Hne & Hc) | (_ & Hacc & _ & syn & okA & del & Hc & Hsyn & Hdel)].
  - split; [exact Hne |].
    assert (Hine : In e idx).
    { rewrite Hc in Hin. apply in_app_or in Hin as [Hin | Hin]; [| exact Hin].
      exfalso. eapply (kind_excludes populating); [| exact Hin | exact Hpop'].
      apply Hpre; reflexivity. }
    split.
    + destruct Hsplit as (init & tail & -> & Hinit & Hlen).
      apply in_app_or in Hine as [Hine | Hine].
      { exfalso. eapply accepted_not_rejected; eauto. }
      destruct tail as [| x [| y tail]]; [destruct Hine | | simpl in Hlen; lia].
      destruct Hine as [-> | []]. exists (pre ++ init).
      rewrite Hc, <- app_assoc. reflexivity.
    + rewrite Hc. apply Forall_app. split; [apply Hpre; reflexivity |].
      apply (population_kind idx (fun c => finishing c = false) Hp); reflexivity.
  - exfalso. rewrite Hc in Hin.
    apply in_app_or in Hin as [Hin | Hin].
    { eapply (kind_excludes populating); [| exact Hin | exact Hpop'].
      apply Hpre; reflexivity. }
    apply in_app_or in Hin as [Hin | Hin].
    { eapply accepted_not_rejected; eauto. }
    apply in_app_or in Hin as [Hin | [<- | Hin]].
    + eapply (kind_excludes populating); [| exact Hin | exact Hpop'].
      apply (upserts_kind _ _ _ (fun c => populating c = false) Hsyn). reflexivity.
    + discriminate.
    + eapply (kind_excludes populating); [| exact Hin | exact Hpop'].
      apply (deletion_kind _ _ _ _ (fun c => populating c = false) Hdel). reflexivity.
Qed.

Lemma rejected_population_keeps_alias_witness :
  let r := run (scripted (liveSite isDocumentCreate)) nextName docsSchema
             "/public" None in
  fst r <> Returned tt /\
  (exists before,
     calls (snd r) =
       before ++ [ev (DocumentCreate "docs_2"
                        (complete "/blog/"
                           {[ "tags" := VArray [SStr "go"; SStr "rust"] ]})) false]) /\
  Forall (fun x => finishing (ev_call x) = false) (calls (snd r)).
Proof.
  intros r.
  apply (rejected_population_keeps_alias (scripted (liveSite isDocumentCreate))
           nextName docsSchema "/public" None (fst r) (snd r)).
  - apply surjective_pairing.
  - vm_compute. do 5 right. left. reflexivity.
  - reflexivity.
  - reflexivity.
Defined.

Lemma readsOf_none (l : History) :
  Forall (fun e => populating (ev_call e) = false) l -> readsOf l = [].
Proof.
  induction 1 as [| e l He _ IH]; [reflexivity |].
  unfold readsOf in *. simpl. unfold readOf at 1.
  destruct (ev_call e); try discriminate He; exact IH.
Qed.

Lemma readsOf_app (l1 l2 : History) : readsOf (l1 ++ l2) = readsOf l1 ++ readsOf l2.
Proof. apply omap_app. Qed.

Lemma run_pre_kind W root a disc c okC (K : Call -> bool) :
  map ev_call disc = discoveryCalls W root a ->
  K (ListHtmlFiles root) = false ->
  (forall x, K (AliasRetrieve x) = false) ->
  (forall x, K (SynonymsRetrieve x) = false) ->
  (forall x, K (CollectionCreate x) = false) ->
  Forall (fun x => K (ev_call x) = false)
    (afterListing root ++ disc ++ [ev (CollectionCreate c) okC]).
Proof.
  intros Hdisc K1 K2 K3 K4.
  apply Forall_app. split; [repeat constructor; exact K1 |].
  apply Forall_app. split.
  - apply (discovery_kind _ _ _ _ (fun c => K c = false) Hdisc); assumption.
  - repeat constructor. apply K4.
Qed.



(** X12.  The alias is upserted only to the new collection and only after
    the population is complete: by then the listing had resolved, every
    listed file has been read, once and in the order of the listing, and
    every read and every document creation was accepted. *)
Theorem swap_follows_complete_population W gen cs publicDir rootDir o s' a c ok :
  run W gen cs publicDir rootDir = (o, s') ->
  In (ev (AliasUpsert a c) ok) (calls s') ->
  a = schema_name cs /\ c = gen cs /\
  exists files,
    w_listHtmlFiles W [] (default publicDir (nameGiven rootDir)) = Resolved files /\
    readsOf (calls s') = files /\
    Forall (fun e => populates e = true -> accepted e) (calls s').
Proof.
  intros Hrun Hin. pose proof (run_detail _ _ _ _ _ _ _ Hrun) as Hd.
  destruct (w_listHtmlFiles W [] _) as [files | err].
  2:{ destruct Hd as [_ Hc]. rewrite Hc in Hin. destruct Hin as [Hin | []].
      discriminate. }
  destruct Hd as (disc & okC & Hdisc & Hd). cbv zeta in Hd.
  pose proof (fun K => run_pre_kind _ _ _ _ (withName cs (gen cs)) okC K Hdisc)
    as Hpre.
  remember (afterListing (default publicDir (nameGiven rootDir)) ++ disc
              ++ [ev (CollectionCreate (withName cs (gen cs))) okC]) as pre
    eqn:Epre in *.
  destruct Hd as [(_ & _ & Hc) | (_ & idx & Hp & _ & _ & _ & Hd)].
  { exfalso. rewrite Hc in Hin.
    eapply (kind_excludes isAliasUpsert); [| exact Hin | reflexivity].
    apply Hpre; reflexivity. }
  destruct Hd as [(Hne & Hc) | (_ & Hacc & Hreads & syn & okA & del & Hc & Hsyn & Hdel)].
  { exfalso. rewrite Hc in Hin. apply in_app_or in Hin as [Hin | Hin].
    - eapply (kind_excludes isAliasUpsert); [| exact Hin | reflexivity].
      apply Hpre; reflexivity.
    - eapply (kind_excludes isAliasUpsert); [| exact Hin | reflexivity].
      apply (population_kind idx (fun c => isAliasUpsert c = false) Hp); reflexivity. }
  assert (Hsynk : forall K : Call -> bool,
            (forall x i t, K (SynonymUpsert x i t) = false) ->
            Forall (fun x => K (ev_call x) = false) syn).
  { intros K HK. apply (upserts_kind _ _ _ (fun c => K c = false) Hsyn).
    intros; apply HK. }
  assert (Hdelk : forall K : Call -> bool,
            (forall x, K (CollectionDelete x) = false) ->
            Forall (fun x => K (ev_call x) = false) del).
  { intros K HK. apply (deletion_kind _ _ _ _ (fun c => K c = false) Hdel).
    intros; apply HK. }
  assert (Hac : a = schema_name cs /\ c = gen cs).
  { rewrite Hc in Hin. apply in_app_or in Hin as [Hin | Hin].
    { exfalso. eapply (kind_excludes isAliasUpsert); [| exact Hin | reflexivity].
      apply Hpre; reflexivity. }
    apply in_app_or in Hin as [Hin | Hin].
    { exfalso. eapply (kind_excludes isAliasUpsert); [| exact Hin | reflexivity].
      apply (population_kind idx (fun c => isAliasUpsert c = false) Hp); reflexivity. }
    apply in_app_or in Hin as [Hin | [Heq | Hin]].
    - exfalso. eapply (kind_excludes isAliasUpsert); [| exact Hin | reflexivity].
      apply Hsynk. reflexivity.
    - injection Heq as <- <- _. split; reflexivity.
    - exfalso. eapply (kind_excludes isAliasUpsert); [| exact Hin | reflexivity].
      apply Hdelk. reflexivity. }
  destruct Hac as [-> ->]. split; [reflexivity |]. split; [reflexivity |].
  exists files. split; [reflexivity |]. split.
  - rewrite Hc, !readsOf_app, Hreads.
    rewrite (readsOf_none _ (Hpre populating eq_refl (fun _ => eq_refl)
                               (fun _ => eq_refl) (fun _ => eq_refl))).
    rewrite (readsOf_none syn (Hsynk populating (fun _ _ _ => eq_refl))).
    change (ev (AliasUpsert (schema_name cs) (gen cs)) okA :: del)
      with ([ev (AliasUpsert (schema_name cs) (gen cs)) okA] ++ del).
    rewrite readsOf_app, (readsOf_none del (Hdelk populating (fun _ => eq_refl))).
    simpl. rewrite app_nil_r. reflexivity.
  - assert (Hweak : forall l, Forall (fun x => populating (ev_call x) = false) l ->
                      Forall (fun e => populates e = true -> accepted e) l).
    { intros l Hl. eapply List.Forall_impl; [| exact Hl].
      intros e He Hp'. unfold populates in Hp'. unfold populating in He.
      simpl in He. congruence. }
    rewrite Hc. apply Forall_app. split; [apply Hweak, Hpre; reflexivity |].
    apply Forall_app. split.
    { eapply List.Forall_impl; [| exact Hacc]. intros e He _. exact He. }
    apply Forall_app. split; [apply Hweak, Hsynk; reflexivity |].
    constructor; [discriminate |]. apply Hweak, Hdelk. reflexivity.
Qed.

Lemma swap_follows_complete_population_witness :
  let r := run (scripted (liveSite (fun _ => false))) nextName docsSchema
             "/public" None in
  "docs" = schema_name docsSchema /\ "docs_2" = nextName docsSchema /\
  exists files,
    w_listHtmlFiles (scripted (liveSite (fun _ => false))) []
      (default "/public" (nameGiven None)) = Resolved files /\
    readsOf (calls (snd r)) = files /\
    Forall (fun e => populates e = true -> accepted e) (calls (snd r)).
Proof.
  intros r.
  apply (swap_follows_complete_population (scripted (liveSite (fun _ => false)))
           nextName docsSchema "/public" None (fst r) (snd r) "docs" "docs_2" true).
  - apply surjective_pairing.
  - vm_compute. do 7 right. left. reflexivity.
Defined.

(** X13.  A run that returns ends with: one upsert per synonym rule that
    the retrieval from the old generation replied with, in the order of the
    reply and under the ids and terms of the rules; then the upsert of the
    alias; then, when an old generation was found, the deletion of that
    collection and nothing else.  None of these requests occurs earlier. *)
Theorem completed_run_finishes_in_order W gen cs publicDir rootDir s' :
  run W gen cs publicDir rootDir = (Returned tt, s') ->
  exists before syn okA del,
    calls s' = before ++ syn
                 ++ ev (AliasUpsert (schema_name cs) (gen cs)) okA :: del /\
    Forall (fun e => finishing (ev_call e) = false) before /\
    map ev_call syn =
      map (upsertOf (gen cs))
        (carriedRules W (default publicDir (nameGiven rootDir)) (schema_name cs)) /\
    map ev_call del =
      deletionCalls W (default publicDir (nameGiven rootDir)) (schema_name cs).
Proof.
  intros Hrun. pose proof (run_detail _ _ _ _ _ _ _ Hrun) as Hd.
  destruct (w_listHtmlFiles W [] _) as [files | err]; [| destruct Hd; discriminate].
  destruct Hd as (disc & okC & Hdisc & Hd). cbv zeta in Hd.
  destruct Hd as [(_ & Hex & _) | (_ & idx & Hp & _ & _ & _ & Hd)]; [discriminate |].
  destruct Hd as [(Hne & _) | (_ & _ & _ & syn & okA & del & Hc & Hsyn & Hdel)];
    [congruence |].
  exists ((afterListing (default publicDir (nameGiven rootDir)) ++ disc
             ++ [ev (CollectionCreate (withName cs (gen cs))) okC]) ++ idx),
         syn, okA, del.
  split; [rewrite Hc; apply app_assoc |].
  split; [| split; assumption].
  apply Forall_app. split.
  - apply (run_pre_kind _ _ _ _ _ _ finishing Hdisc); reflexivity.
  - apply (population_kind idx (fun c => finishing c = false) Hp); reflexivity.
Qed.

Lemma completed_run_finishes_in_order_witness :
  exists before syn okA del,
    calls (snd (run (scripted (liveSite (fun _ => false))) nextName docsSchema
                  "/public" None)) =
      before ++ syn ++ ev (AliasUpsert "docs" "docs_2") okA :: del /\
    Forall (fun e => finishing (ev_call e) = false) before /\
    map ev_call syn =
      map (upsertOf "docs_2")
        (carriedRules (scripted (liveSite (fun _ => false)))
           (default "/public" (nameGiven None)) "docs") /\
    map ev_call del =
      deletionCalls (scripted (liveSite (fun _ => false)))
        (default "/public" (nameGiven None)) "docs".
Proof.
  apply (completed_run_finishes_in_order (scripted (liveSite (fun _ => false)))
           nextName docsSchema "/public" None).
  vm_compute. reflexivity.
Defined.

Lemma removeFirst_eq pat s :
  removeFirst pat s =
  if startsWith pat s then drop (String.length pat) s
  else match s with
       | String c r => String c (removeFirst pat r)
       | EmptyString => EmptyString
       end.
Proof. destruct s; reflexivity. Qed.

Lemma removeSuffix_eq suf s :
  removeSuffix suf s =
  if String.eqb suf s then EmptyString
  else match s with
       | String c r => String c (removeSuffix suf r)
       | EmptyString => EmptyString
       end.
Proof. destruct s; reflexivity. Qed.

Lemma startsWith_prefix p r : startsWith p (p ++ r)%string = true.
Proof.
  induction p as [| a p IH]; [destruct r; reflexivity |].
  rewrite append_cons, startsWith_cons, IH, Ascii.eqb_refl. reflexivity.
Qed.

Lemma drop_prefix p r : drop (String.length p) (p ++ r)%string = r.
Proof.
  induction p as [| a p IH]; [destruct r; reflexivity | exact IH].
Qed.

Lemma removeFirst_prefix p r : removeFirst p (p ++ r)%string = r.
Proof. rewrite removeFirst_eq, startsWith_prefix. apply drop_prefix. Qed.

Lemma length_append (a b : string) :
  String.length (a ++ b)%string = (String.length a + String.length b)%nat.
Proof. induction a as [| c a IH]; simpl; [reflexivity | rewrite IH; reflexivity]. Qed.

Lemma removeSuffix_suffix suf p : removeSuffix suf (p ++ suf)%string = p.
Proof.
  induction p as [| c p IH].
  - change ("" ++ suf)%string with suf. rewrite removeSuffix_eq, String.eqb_refl.
    reflexivity.
  - rewrite removeSuffix_eq.
    destruct (String.eqb_spec suf (String c p ++ suf)%string) as [E | _].
    + exfalso. apply (f_equal String.length) in E.
      rewrite length_append in E. simpl in E. lia.
    + rewrite append_cons, IH. reflexivity.
Qed.

Lemma removeSuffix_other suf s :
  (forall p, s <> (p ++ suf)%string) -> removeSuffix suf s = s.
Proof.
  induction s as [| c s IH]; intros Hno.
  - rewrite removeSuffix_eq. destruct (String.eqb suf ""); reflexivity.
  - rewrite removeSuffix_eq.
    destruct (String.eqb_spec suf (String c s)) as [E | _].
    + exfalso. apply (Hno ""). rewrite E. reflexivity.
    + rewrite IH; [reflexivity |]. intros p ->. apply (Hno (String c p)).
      reflexivity.
Qed.

(** X14.  The path a file is indexed under: for a file below the root
    directory the root is removed, and so is a final "index.html"; a file
    name that does not end in "index.html" is kept whole. *)
Theorem page_path_strips_root_and_index rootDir rest :
  wwwPathOf rootDir (rootDir ++ rest ++ "index.html")%string = rest /\
  ((forall p, rest <> (p ++ "index.html")%string) ->
   wwwPathOf rootDir (rootDir ++ rest)%string = rest).
Proof.
  unfold wwwPathOf. rewrite !removeFirst_prefix. split.
  - apply removeSuffix_suffix.
  - apply removeSuffix_other.
Qed.

Lemma page_path_strips_root_and_index_witness :
  wwwPathOf "/public" ("/public" ++ "/blog/" ++ "index.html")%string = "/blog/" /\
  wwwPathOf "/public" ("/public" ++ "/a")%string = "/a".
Proof.
  split.
  - apply (proj1 (page_path_strips_root_and_index "/public" "/blog/")).
  - apply (proj2 (page_path_strips_root_and_index "/public" "/a")).
    intros p H. apply (f_equal String.length) in H.
    rewrite length_append in H. simpl in H. lia.
Defined.

(** X15.  The population loop, given the index page of a directory below
    the root, makes one read request, for that file, and after it at most
    one request, which creates a document whose [page_path] is the
    directory path: root and "index.html" removed.  When the read is
    rejected nothing is created, and the loop returns only when the read
    and the creation, if any, are accepted. *)
Theorem indexed_page_gets_its_path W rootDir rest l s o s' :
  indexFiles W rootDir l [(rootDir ++ rest ++ "index.html")%string] s = (o, s') ->
  exists (okR : bool) docs,
    calls s' =
      calls s ++ ev (ReadFile (rootDir ++ rest ++ "index.html")%string) okR :: docs /\
    length docs <= 1 /\
    Forall (submits (nameAt s l) rest) docs /\
    (okR = false -> docs = []) /\
    (o = Returned tt -> okR = true /\ Forall accepted docs).
Proof.
  intros H. simpl in H.
  change (removeSuffix "index.html"
            (removeFirst rootDir (rootDir ++ rest ++ "index.html")%string))
    with (wwwPathOf rootDir (rootDir ++ rest ++ "index.html")%string) in H.
  rewrite (proj1 (page_path_strips_root_and_index rootDir rest)) in H.
  rewrite bind_unfold in H. unfold report in H. rewrite bind_unfold in H.
  unfold request in H. simpl in H.
  destruct (w_readFile W (calls s) _) as [html | e].
  - rewrite bind_unfold in H.
    match type of H with context [indexContentInTypesense W html rest l ?st] =>
      set (s1 := st) in *
    end.
    destruct (indexContentInTypesense W html rest l s1) as [o1 s2] eqn:H1.
    apply indexContent_contract in H1
      as (Hout & _ & evs1 & Hc1 & Hlen & Hsub & Hret & _).
    assert (Hs' : o = o1 /\ s' = s2).
    { destruct Hout as [-> | [-> | ->]]; simpl in H; injection H as <- <-;
        split; reflexivity. }
    destruct Hs' as [-> ->].
    exists true, evs1. split; [rewrite Hc1; subst s1; simpl;
                               rewrite <- app_assoc; reflexivity |].
    split; [exact Hlen |]. split; [exact Hsub |]. split; [discriminate |].
    intros Ho. split; [reflexivity |]. apply (proj1 Hret Ho).
  - injection H as <- <-. exists false, []. split; [reflexivity |].
    split; [simpl; lia |]. split; [constructor |]. split; [reflexivity |].
    discriminate.
Qed.

Lemma indexed_page_gets_its_path_witness :
  let r := indexFiles (scripted (liveSite (fun _ => false))) "/public" 0
             [("/public" ++ "/blog/" ++ "index.html")%string]
             (initial docsSchema) in
  exists (okR : bool) docs,
    calls (snd r) =
      calls (initial docsSchema)
        ++ ev (ReadFile ("/public" ++ "/blog/" ++ "index.html")%string) okR :: docs /\
    length docs <= 1 /\
    Forall (submits (nameAt (initial docsSchema) 0) "/blog/") docs /\
    (okR = false -> docs = []) /\
    (fst r = Returned tt -> okR = true /\ Forall accepted docs).
Proof.
  intros r.
  apply (indexed_page_gets_its_path (scripted (liveSite (fun _ => false)))
           "/public" "/blog/" 0 (initial docsSchema) (fst r) (snd r)).
  apply surjective_pairing.
Defined.

Lemma earlier_fold_lookup ms : forall (doc : document) n,
  doc !! "__proto__" = None ->
  fold_left Earlier.harvestOne ms doc !! n =
  if String.eqb n "__proto__" then None
  else match last (valuesOf n ms) with
       | Some v => Some (rawText v)
       | None => doc !! n
       end.
Proof.
  induction ms as [| m ms IH]; intros doc n Hp.
  - simpl. destruct (String.eqb_spec n "__proto__") as [-> | _];
      [exact Hp | reflexivity].
  - simpl fold_left.
    assert (Hone : Earlier.harvestOne doc m =
                   if String.eqb (attributeName m) "__proto__" then doc
                   else <[attributeName m := rawText (attributeValue m)]> doc).
    { unfold Earlier.harvestOne. apply setProperty_spec. exact Hp. }
    assert (Hp1 : Earlier.harvestOne doc m !! "__proto__" = None).
    { rewrite Hone.
      destruct (String.eqb_spec (attributeName m) "__proto__") as [_ | Hne];
        [exact Hp |].
      rewrite lookup_insert_ne by exact Hne. exact Hp. }
    rewrite (IH _ n Hp1), valuesOf_cons.
    destruct (String.eqb_spec n "__proto__") as [_ | Hn]; [reflexivity |].
    destruct (decide (attributeName m = n)) as [<- | Hne].
    + destruct (valuesOf (attributeName m) ms) as [| v vs] eqn:Hv.
      * simpl. rewrite Hone.
        destruct (String.eqb_spec (attributeName m) "__proto__");
          [contradiction |].
        apply lookup_insert_eq.
      * change (last (attributeValue m :: v :: vs)) with (last (v :: vs)).
        destruct (last (v :: vs)) eqn:Hl; [reflexivity |].
        apply last_None in Hl. discriminate.
    + destruct (last (valuesOf n ms)); [reflexivity |].
      rewrite Hone.
      destruct (String.eqb (attributeName m) "__proto__"); [reflexivity |].
      apply lookup_insert_ne. exact Hne.
Qed.

(** X16.  In the earlier version every marker is stored under its name,
    but a marker named [__proto__], which is stored nowhere: the document
    holds, for each other name, the uncoerced text of the last marker with
    that name, and nothing for a name no marker has. *)
Theorem earlier_harvest_keeps_last_raw_text ms n :
  Earlier.harvest ms !! n =
  if String.eqb n "__proto__" then None
  else rawText <$> last (valuesOf n ms).
Proof.
  unfold Earlier.harvest. rewrite earlier_fold_lookup by apply lookup_empty.
  destruct (String.eqb n "__proto__"); [reflexivity |].
  rewrite lookup_empty. destruct (last (valuesOf n ms)); reflexivity.
Qed.

(** X17.  In the earlier version a page with a marker that is not named
    [__proto__] always leads to one request, which creates the completed
    document in the collection the caller names; its rejection is a panic.
    The score of that document is the text of the last
    [page_priority_score] marker unless that text is empty: the text "0" is
    kept, and an empty text or no marker gives 10. *)
Theorem earlier_submission W html path name s :
  Exists (fun m => attributeName m <> "__proto__") (w_select W html) ->
  exists ok : bool,
    fst (Earlier.indexContentInTypesense W html path name s) =
      (if ok then Returned tt else Exited) /\
    calls (snd (Earlier.indexContentInTypesense W html path name s)) =
      calls s ++ [ev (DocumentCreate name
                        (complete path (Earlier.harvest (w_select W html)))) ok] /\
    complete path (Earlier.harvest (w_select W html)) !! "page_priority_score" =
      Some (match last (valuesOf "page_priority_score" (w_select W html)) with
            | Some v => if String.eqb v "" then ten else rawText v
            | None => ten
            end).
Proof.
  intros Hne.
  assert (Hdoc : isObjectEmpty (Earlier.harvest (w_select W html)) = false).
  { apply Exists_exists in Hne as (m & Hin & Hm).
    pose proof (earlier_harvest_keeps_last_raw_text (w_select W html)
                  (attributeName m)) as H.
    destruct (String.eqb_spec (attributeName m) "__proto__"); [contradiction |].
    destruct (last (valuesOf (attributeName m) (w_select W html))) eqn:Hl.
    - eapply isObjectEmpty_lookup. exact H.
    - exfalso. apply last_None in Hl. apply valuesOf_nil_iff in Hl. apply Hl.
      apply list_elem_of_fmap. exists m. split; [reflexivity | exact Hin]. }
  assert (Hscore : complete path (Earlier.harvest (w_select W html))
                     !! "page_priority_score" =
      Some (match last (valuesOf "page_priority_score" (w_select W html)) with
            | Some v => if String.eqb v "" then ten else rawText v
            | None => ten
            end)).
  { rewrite complete_priority, earlier_harvest_keeps_last_raw_text.
    change (String.eqb "page_priority_score" "__proto__") with false.
    cbv iota.
    destruct (last (valuesOf "page_priority_score" (w_select W html))) as [v |];
      [| reflexivity].
    simpl. destruct (String.eqb v ""); reflexivity. }
  unfold Earlier.indexContentInTypesense. cbv zeta. rewrite Hdoc.
  unfold tryCatch, bind, report, request, panic. simpl.
  destruct (w_documentCreate W _ _ _) as [[] | e]; simpl.
  - exists true. split; [reflexivity |]. split; [reflexivity | exact Hscore].
  - exists false. split; [reflexivity |]. split; [reflexivity | exact Hscore].
Qed.

Lemma earlier_submission_witness :
  exists ok : bool,
    fst (Earlier.indexContentInTypesense (scripted (siteOf [zeroScorePage]))
           (page_html zeroScorePage) "/draft/" "docs_2" (initial docsSchema)) =
      (if ok then Returned tt else Exited) /\
    calls (snd (Earlier.indexContentInTypesense (scripted (siteOf [zeroScorePage]))
                  (page_html zeroScorePage) "/draft/" "docs_2" (initial docsSchema))) =
      calls (initial docsSchema)
        ++ [ev (DocumentCreate "docs_2"
                  (complete "/draft/"
                     (Earlier.harvest
                        (w_select (scripted (siteOf [zeroScorePage]))
                           (page_html zeroScorePage))))) ok] /\
    complete "/draft/"
      (Earlier.harvest
         (w_select (scripted (siteOf [zeroScorePage])) (page_html zeroScorePage)))
      !! "page_priority_score" =
      Some (match last (valuesOf "page_priority_score"
                          (w_select (scripted (siteOf [zeroScorePage]))
                             (page_html zeroScorePage))) with
            | Some v => if String.eqb v "" then ten else rawText v
            | None => ten
            end).
Proof.
  apply (earlier_submission (scripted (siteOf [zeroScorePage]))
           (page_html zeroScorePage) "/draft/" "docs_2" (initial docsSchema)).
  apply Exists_cons_hd. discriminate.
Defined.

(** X18.  No file is read and no document is created before the creation
    of the new collection, with the caller's schema under the generated
    name, has been accepted. *)
Theorem population_follows_accepted_create W gen cs publicDir rootDir o s'
    before e after :
  run W gen cs publicDir rootDir = (o, s') ->
  calls s' = before ++ e :: after ->
  populates e = true ->
  In (ev (CollectionCreate (withName cs (gen cs))) true) before.
Proof.
  intros Hrun Hsplit Hpop. pose proof (run_detail _ _ _ _ _ _ _ Hrun) as Hd.
  assert (Hin : In e (calls s')).
  { rewrite Hsplit. apply in_or_app. right. left. reflexivity. }
  destruct (w_listHtmlFiles W [] _) as [files | err].
  2:{ destruct Hd as [_ Hc]. rewrite Hc in Hin. destruct Hin as [<- | []].
      discriminate. }
  destruct Hd as (disc & okC & Hdisc & Hd). cbv zeta in Hd.
  pose proof (run_pre_kind _ _ _ _ (withName cs (gen cs)) okC populating Hdisc
                eq_refl (fun _ => eq_refl) (fun _ => eq_refl) (fun _ => eq_refl))
    as Hpre.
  remember (afterListing (default publicDir (nameGiven rootDir)) ++ disc
              ++ [ev (CollectionCreate (withName cs (gen cs))) okC]) as pre
    eqn:Epre in *.
  assert (Hrest : okC = true /\ exists rest, calls s' = pre ++ rest).
  { destruct Hd as [(_ & _ & Hc) | (-> & idx & _ & _ & _ & _ & Hd)].
    - exfalso. rewrite Hc in Hin.
      eapply (kind_excludes populating); [exact Hpre | exact Hin | exact Hpop].
    - split; [reflexivity |].
      destruct Hd as [(_ & Hc) | (_ & _ & _ & syn & okA & del & Hc & _)];
        rewrite Hc; eauto. }
  destruct Hrest as (-> & rest & Hc). rewrite Hc in Hsplit.
  destruct (split_after_prefix populates pre rest before e after Hsplit Hpre Hpop)
    as [b ->].
  apply in_or_app. left. rewrite Epre. rewrite !in_app_iff. right. right.
  left. reflexivity.
Qed.

Lemma population_follows_accepted_create_witness :
  In (ev (CollectionCreate (withName docsSchema "docs_2")) true)
    [ev (ListHtmlFiles "/public") true; ev (AliasRetrieve "docs") true;
     ev (SynonymsRetrieve "docs_1") true;
     ev (CollectionCreate (withName docsSchema "docs_2")) true].
Proof.
  apply (population_follows_accepted_create
           (scripted (liveSite (fun _ => false))) nextName docsSchema "/public" None
           (fst (run (scripted (liveSite (fun _ => false))) nextName docsSchema
                   "/public" None))
           (snd (run (scripted (liveSite (fun _ => false))) nextName docsSchema
                   "/public" None))
           [ev (ListHtmlFiles "/public") true; ev (AliasRetrieve "docs") true;
            ev (SynonymsRetrieve "docs_1") true;
            ev (CollectionCreate (withName docsSchema "docs_2")) true]
           (ev (ReadFile "/public/blog/index.html") true)
           [ev (DocumentCreate "docs_2"
                  (complete "/blog/"
                     {[ "tags" := VArray [SStr "go"; SStr "rust"] ]})) true;
            ev (SynonymUpsert "docs_2" "s1" ["go"; "golang"]) true;
            ev (AliasUpsert "docs" "docs_2") true;
            ev (CollectionDelete "docs_1") true]).
  - apply surjective_pairing.
  - vm_compute. reflexivity.
  - reflexivity.
Defined.
